(** * ChainSense-AI: the session store and the authenticated API client

    A shallow embedding of the zustand store [useAuthStore]
    ([store/authStore.ts]) and of the axios client [api] with its two
    interceptors ([services/api.ts]; the line numbers given below are
    those of the file the client is found in, [pages/ShipmentsPage.tsx]),
    followed by the properties of the token lifecycle.

    The store is modelled by explicit state passing: an operation maps a
    store to a store.  The API client is asynchronous; it is modelled as a
    machine that advances on the events of the browser's event loop (the
    transport settles a request, the refresh endpoint settles, some other
    component calls a store operation), so that what happens between an
    [await] and its continuation is part of an execution. *)

From Stdlib Require Import ZArith Lia.
From stdpp Require Import base option strings gmap list.

(* ===================================================================== *)
(** ** store/authStore.ts *)
(* ===================================================================== *)

Module AuthStore.

(** [interface User] *)
Record User := {
  id : string;
  email : string;
  username : string;
  fullName : string;
  role : string
}.

(** [Partial<User>]: every key of [User] may be absent. *)
Record PartialUser := {
  id_opt : option string;
  email_opt : option string;
  username_opt : option string;
  fullName_opt : option string;
  role_opt : option string
}.

(** The keys of [User], to speak about one key at a time. *)
Inductive UserKey := Kid | Kemail | Kusername | KfullName | Krole.

Definition get (k : UserKey) (u : User) : string :=
  match k with
  | Kid => id u
  | Kemail => email u
  | Kusername => username u
  | KfullName => fullName u
  | Krole => role u
  end.

Definition given (k : UserKey) (p : PartialUser) : option string :=
  match k with
  | Kid => id_opt p
  | Kemail => email_opt p
  | Kusername => username_opt p
  | KfullName => fullName_opt p
  | Krole => role_opt p
  end.

(** [{ ...u, ...userData }]: the keys present in [userData] win. *)
Definition spread (u : User) (userData : PartialUser) : User :=
  {| id := default (id u) (id_opt userData);
     email := default (email u) (email_opt userData);
     username := default (username u) (username_opt userData);
     fullName := default (fullName u) (fullName_opt userData);
     role := default (role u) (role_opt userData) |}.

(** The data members of [interface AuthState].  Its three other members,
    [login], [logout] and [updateUser], are the operations below. *)
Record AuthState := {
  user : option User;
  accessToken : option string;
  refreshToken : option string;
  isAuthenticated : bool
}.

(** The member names of [interface AuthState], in declaration order. *)
Definition AuthState_members : list string :=
  ["user"; "accessToken"; "refreshToken"; "isAuthenticated";
   "login"; "logout"; "updateUser"].

Definition operation_members : list string :=
  ["login"; "logout"; "updateUser"].

(** The object literal a call of zustand's [set] is given: the members it
    lists are replaced, the others are kept. *)
Record Patch := {
  set_user : option (option User);
  set_accessToken : option (option string);
  set_refreshToken : option (option string);
  set_isAuthenticated : option bool
}.

Definition assign (s : AuthState) (p : Patch) : AuthState :=
  {| user := default (user s) (set_user p);
     accessToken := default (accessToken s) (set_accessToken p);
     refreshToken := default (refreshToken s) (set_refreshToken p);
     isAuthenticated := default (isAuthenticated s) (set_isAuthenticated p) |}.

(** What [persist] serialises. *)
#[warnings="-register-all"]
Inductive json :=
| JNull
| JBool (b : bool)
| JString (s : string)
| JObject (members : list (string * json)).

Definition json_of_user (u : User) : json :=
  JObject [("id", JString (id u)); ("email", JString (email u));
           ("username", JString (username u));
           ("fullName", JString (fullName u)); ("role", JString (role u))].

Definition json_of_nullable {A} (f : A -> json) (x : option A) : json :=
  match x with
  | Some a => f a
  | None => JNull
  end.

(** [name: 'chainsense-auth'] *)
Definition name : string := "chainsense-auth".

(** [partialize: (state) => ({ user: state.user, ... })] *)
Definition partialize (state : AuthState) : list (string * json) :=
  [("user", json_of_nullable json_of_user (user state));
   ("accessToken", json_of_nullable JString (accessToken state));
   ("refreshToken", json_of_nullable JString (refreshToken state));
   ("isAuthenticated", JBool (isAuthenticated state))].

(** The store together with the durable storage [persist] writes to.
    [localStorage] maps a key to the record kept under it. *)
Record Store := {
  getState : AuthState;
  localStorage : gmap string (list (string * json))
}.

(** [set] as wrapped by [persist]: merge the patch into the state, then
    write the partialised state under [name]. *)
Definition set (f : AuthState -> Patch) (st : Store) : Store :=
  let state' := assign (getState st) (f (getState st)) in
  {| getState := state';
     localStorage := <[name := partialize state']> (localStorage st) |}.

(** The initial members of the store (lines 25-28). *)
Definition initial : AuthState :=
  {| user := None; accessToken := None; refreshToken := None;
     isAuthenticated := false |}.

(** Reading a member of a parsed record; of a key written twice the
    later value counts, as with [JSON.parse]. *)
Fixpoint member (k : string) (record : list (string * json)) : option json :=
  match record with
  | [] => None
  | (k', v) :: rest =>
      match member k rest with
      | Some v' => Some v'
      | None => if String.eqb k k' then Some v else None
      end
  end.

Definition string_of_json (j : json) : option string :=
  match j with
  | JString s => Some s
  | _ => None
  end.

Definition bool_of_json (j : json) : option bool :=
  match j with
  | JBool b => Some b
  | _ => None
  end.

Definition string_member (k : string) (members : list (string * json))
  : option string :=
  match member k members with
  | Some j => string_of_json j
  | None => None
  end.

Definition user_of_json (j : json) : option User :=
  match j with
  | JObject members =>
      match string_member "id" members, string_member "email" members,
            string_member "username" members, string_member "fullName" members,
            string_member "role" members with
      | Some i, Some e, Some u, Some f, Some r =>
          Some {| id := i; email := e; username := u; fullName := f; role := r |}
      | _, _, _, _, _ => None
      end
  | _ => None
  end.

Definition nullable_of_json {A} (f : json -> option A) (j : json)
  : option (option A) :=
  match j with
  | JNull => Some None
  | _ => match f j with
         | Some a => Some (Some a)
         | None => None
         end
  end.

Definition decoded {A} (f : json -> option A) (k : string)
  (record : list (string * json)) : option A :=
  match member k record with
  | Some j => f j
  | None => None
  end.

(** What [persist] does with the record it finds at creation: its default
    [merge], [{ ...currentState, ...persistedState }], so a member the
    record has replaces the initial one and a member it lacks leaves the
    initial one.  A value that the member's type in [AuthState] cannot
    hold (a number for a token, say) has no counterpart in this typed
    state and leaves the initial one as well. *)
Definition rehydrate (record : list (string * json)) (current : AuthState)
  : AuthState :=
  {| user := default (user current)
               (decoded (nullable_of_json user_of_json) "user" record);
     accessToken := default (accessToken current)
                      (decoded (nullable_of_json string_of_json)
                         "accessToken" record);
     refreshToken := default (refreshToken current)
                       (decoded (nullable_of_json string_of_json)
                          "refreshToken" record);
     isAuthenticated := default (isAuthenticated current)
                          (decoded bool_of_json "isAuthenticated" record) |}.

(** The store at creation, over what the origin keeps in [localStorage]:
    [persist] restores the session from the record under [name] when
    there is one, and starts from the initial members when there is
    none.  Creation itself writes nothing here (whether [persist] writes
    the restored state back at once depends on the version of zustand;
    the record is written at the first [set] at the latest). *)
Definition create (storage : gmap string (list (string * json))) : Store :=
  {| getState := match storage !! name with
                 | Some record => rehydrate record initial
                 | None => initial
                 end;
     localStorage := storage |}.

(** [login: (user, accessToken, refreshToken) => set({...})].  The
    parameter is declared [User]; the type is erased at run time and the
    response interceptor passes [getState().user!], which is whatever the
    store holds, so the value is nullable here.  Callers that hand in a
    [User] go through [Login] of [op] below. *)
Definition login (user : option User) (accessToken refreshToken : string)
  : Store -> Store :=
  set (fun _ =>
    {| set_user := Some user;
       set_accessToken := Some (Some accessToken);
       set_refreshToken := Some (Some refreshToken);
       set_isAuthenticated := Some true |}).

(** [logout: () => set({...})] *)
Definition logout : Store -> Store :=
  set (fun _ =>
    {| set_user := Some None;
       set_accessToken := Some None;
       set_refreshToken := Some None;
       set_isAuthenticated := Some false |}).

(** [updateUser: (userData) => set((state) => ({ user: ... }))] *)
Definition updateUser (userData : PartialUser) : Store -> Store :=
  set (fun state =>
    {| set_user :=
         Some (match user state with
               | Some u => Some (spread u userData)
               | None => None
               end);
       set_accessToken := None;
       set_refreshToken := None;
       set_isAuthenticated := None |}).

(** A call of a store operation by a component of the application. *)
Inductive op :=
| Login (u : User) (accessToken refreshToken : string)
| Logout
| UpdateUser (userData : PartialUser).

Definition apply_op (o : op) : Store -> Store :=
  match o with
  | Login u a r => login (Some u) a r
  | Logout => logout
  | UpdateUser p => updateUser p
  end.

(** JavaScript truthiness of a [string | null]: [null] and the empty
    string are falsy. *)
Definition truthy (t : option string) : bool :=
  match t with
  | Some (String _ _) => true
  | _ => false
  end.

End AuthStore.

(* ===================================================================== *)
(** ** services/api.ts *)
(* ===================================================================== *)

Module Api.
Import AuthStore.

(** The request descriptor, with the [_retry] mark the response
    interceptor puts on it. *)
Record AxiosRequestConfig := {
  url : string;
  method : string;
  headers : gmap string string;
  data : string;
  _retry : bool
}.

Record AxiosResponse := {
  status : Z;
  response_data : string
}.

(** [error.config] and [error.response]; a transport failure has no
    response. *)
Record AxiosError := {
  config : AxiosRequestConfig;
  response : option AxiosResponse
}.

(** How the transport settles a request. *)
Inductive reply :=
| Answered (r : AxiosResponse)
| NoAnswer.

(** How [axios.post(`${API_BASE_URL}/auth/refresh`, ...)] settles: it
    resolves with [{ access_token, refresh_token }] in [response.data], or
    it throws.  The two members are strings, as the endpoint is documented
    to answer; the handler does not check them, and a reply in the 2xx
    range that lacks one of them is not among these replies. *)
Inductive refresh_reply :=
| Refreshed (access_token refresh_token : string)
| RefreshFailed.

(** axios' default [validateStatus]. *)
Definition validateStatus (s : Z) : bool := ((200 <=? s) && (s <? 300))%Z.

(** What the caller's promise settles to. *)
Inductive outcome :=
| Resolved (r : AxiosResponse)
| Rejected (e : AxiosError).

(** What the client does to the outside, in order. *)
Inductive effect :=
| Sent (cfg : AxiosRequestConfig)
| RefreshPosted (refresh_token : string)
| CalledLogin (u : option User) (accessToken refreshToken : string)
| CalledLogout.

Inductive phase :=
| OnWire (cfg : AxiosRequestConfig)
| Refreshing (error : AxiosError)
| Settled (o : outcome).

(** One logical request: the shared store, where the request stands, and
    what has been done so far. *)
Record machine := {
  store : Store;
  at_ : phase;
  log : list effect
}.

Definition with_header (k v : string) (cfg : AxiosRequestConfig)
  : AxiosRequestConfig :=
  {| url := url cfg; method := method cfg;
     headers := <[k := v]> (headers cfg);
     data := data cfg; _retry := _retry cfg |}.

Definition mark_retry (cfg : AxiosRequestConfig) : AxiosRequestConfig :=
  {| url := url cfg; method := method cfg; headers := headers cfg;
     data := data cfg; _retry := true |}.

(** The request interceptor (lines 191-200). *)
Definition request_interceptor (state : AuthState) (cfg : AxiosRequestConfig)
  : AxiosRequestConfig :=
  match accessToken state with
  | Some token =>
      if truthy (Some token)
      then with_header "Authorization" ("Bearer " +:+ token) cfg
      else cfg
  | None => cfg
  end.

(** [api(cfg)]: the request interceptor reads the store, then the request
    goes on the wire.  axios hands the descriptor it sent, with every
    member the caller or a handler put on it and so with [_retry], to the
    error of that request as [error.config]. *)
Definition api (st : Store) (l : list effect) (cfg : AxiosRequestConfig)
  : machine :=
  let cfg' := request_interceptor (getState st) cfg in
  {| store := st; at_ := OnWire cfg'; log := l ++ [Sent cfg'] |}.

(** [error.response?.status === 401] *)
Definition status_is_401 (error : AxiosError) : bool :=
  match response error with
  | Some r => (status r =? 401)%Z
  | None => false
  end.

(** The rejection handler of the response interceptor, up to its [await]
    (lines 205-215 and 231-236).  [originalRequest] is [error.config]
    itself, so the mark is seen through the error too. *)
Definition response_rejected (m : machine) (error : AxiosError) : machine :=
  let originalRequest := config error in
  if status_is_401 error && negb (_retry originalRequest) then
    let error' :=
      {| config := mark_retry originalRequest; response := response error |} in
    match refreshToken (getState (store m)) with
    | Some rt =>
        if truthy (Some rt) then
          {| store := store m; at_ := Refreshing error';
             log := log m ++ [RefreshPosted rt] |}
        else
          {| store := logout (store m); at_ := Settled (Rejected error');
             log := log m ++ [CalledLogout] |}
    | None =>
        {| store := logout (store m); at_ := Settled (Rejected error');
           log := log m ++ [CalledLogout] |}
    end
  else
    {| store := store m; at_ := Settled (Rejected error); log := log m |}.

(** The handler after its [await] (lines 219-230): on success the store is
    read again, [login] is called with the user it holds now, the header
    of the original request is replaced and the request is given to [api]
    once more; the promise of that call is returned without being awaited,
    so its rejection does not reach the [catch].  On failure [logout] is
    called and the original error is rejected. *)
Definition refresh_settled (m : machine) (error : AxiosError)
  (r : refresh_reply) : machine :=
  match r with
  | Refreshed access_token refresh_token =>
      let u := user (getState (store m)) in
      let st' := login u access_token refresh_token (store m) in
      let originalRequest :=
        with_header "Authorization" ("Bearer " +:+ access_token) (config error) in
      api st' (log m ++ [CalledLogin u access_token refresh_token])
          originalRequest
  | RefreshFailed =>
      {| store := logout (store m); at_ := Settled (Rejected error);
         log := log m ++ [CalledLogout] |}
  end.

(** The transport has settled the request on the wire: a response that
    passes [validateStatus] goes through [(response) => response], anything
    else is an error for the rejection handler. *)
Definition transport_settled (m : machine) (cfg : AxiosRequestConfig)
  (r : reply) : machine :=
  match r with
  | Answered resp =>
      if validateStatus (status resp) then
        {| store := store m; at_ := Settled (Resolved resp); log := log m |}
      else response_rejected m {| config := cfg; response := Some resp |}
  | NoAnswer => response_rejected m {| config := cfg; response := None |}
  end.

(** The events of the event loop that concern one request. *)
Inductive event :=
| App (o : op)
| Transport (r : reply)
| Refresh (r : refresh_reply).

(** One turn of the event loop; [None] when the event cannot occur where
    the request stands. *)
Definition step (m : machine) (ev : event) : option machine :=
  match ev, at_ m with
  | App o, _ =>
      Some {| store := apply_op o (store m); at_ := at_ m; log := log m |}
  | Transport r, OnWire cfg => Some (transport_settled m cfg r)
  | Refresh r, Refreshing error => Some (refresh_settled m error r)
  | _, _ => None
  end.

Fixpoint run (m : machine) (evs : list event) : option machine :=
  match evs with
  | [] => Some m
  | ev :: evs' =>
      match step m ev with
      | Some m' => run m' evs'
      | None => None
      end
  end.

(** Two requests in flight over the one store: each stands where it
    stands and has its own log, and an event is for one of them. *)
Record in_flight := {
  shared : Store;
  first : phase * list effect;
  second : phase * list effect
}.

Inductive turn :=
| First (ev : event)
| Second (ev : event).

Definition both (st : Store) (cfg1 cfg2 : AxiosRequestConfig) : in_flight :=
  let m1 := api st [] cfg1 in
  let m2 := api st [] cfg2 in
  {| shared := st; first := (at_ m1, log m1); second := (at_ m2, log m2) |}.

Definition step2 (s : in_flight) (t : turn) : option in_flight :=
  match t with
  | First ev =>
      match step {| store := shared s; at_ := fst (first s);
                    log := snd (first s) |} ev with
      | Some m =>
          Some {| shared := store m; first := (at_ m, log m);
                  second := second s |}
      | None => None
      end
  | Second ev =>
      match step {| store := shared s; at_ := fst (second s);
                    log := snd (second s) |} ev with
      | Some m =>
          Some {| shared := store m; first := first s;
                  second := (at_ m, log m) |}
      | None => None
      end
  end.

Fixpoint run2 (s : in_flight) (ts : list turn) : option in_flight :=
  match ts with
  | [] => Some s
  | t :: ts' =>
      match step2 s t with
      | Some s' => run2 s' ts'
      | None => None
      end
  end.

(** What a request settles to when no interceptor stands between the
    transport and the caller. *)
Definition settle (cfg : AxiosRequestConfig) (r : reply) : outcome :=
  match r with
  | Answered resp =>
      if validateStatus (status resp) then Resolved resp
      else Rejected {| config := cfg; response := Some resp |}
  | NoAnswer => Rejected {| config := cfg; response := None |}
  end.

(** Store operations called one after the other. *)
Definition apply_ops (ops : list op) (st : Store) : Store :=
  foldl (fun st o => apply_op o st) st ops.

(** The stores the application can be in: created, then changed by the
    components' calls and by the requests that go through the client,
    each with whatever the event loop runs while it is pending. *)
Inductive reachable (storage : gmap string (list (string * json)))
  : Store -> Prop :=
| reach_create : reachable storage (create storage)
| reach_op st o :
    reachable storage st -> reachable storage (apply_op o st)
| reach_request st cfg evs m :
    reachable storage st ->
    run (api st [] cfg) evs = Some m ->
    reachable storage (store m).

Definition is_Sent (e : effect) : bool :=
  match e with Sent _ => true | _ => false end.

Definition is_RefreshPosted (e : effect) : bool :=
  match e with RefreshPosted _ => true | _ => false end.

(** How often the request went on the wire, and how often the refresh
    endpoint was called. *)
Definition sends (l : list effect) : nat := length (List.filter is_Sent l).
Definition refreshes (l : list effect) : nat :=
  length (List.filter is_RefreshPosted l).

(** The replies the transport gave to the request during an execution. *)
Definition transport_replies (evs : list event) : list reply :=
  omap (fun ev => match ev with Transport r => Some r | _ => None end) evs.

(** An event that comes from the network. *)
Definition from_network (ev : event) : bool :=
  match ev with App _ => false | _ => true end.

End Api.

(* ===================================================================== *)
(** ** App.tsx *)
(* ===================================================================== *)

Module App.
Import AuthStore.

(** What [ProtectedRoute] returns. *)
Inductive rendered :=
| Children
| NavigateTo (to : string).

(** [ProtectedRoute]: the children when [isAuthenticated], else a
    redirect to the login page. *)
Definition ProtectedRoute (state : AuthState) : rendered :=
  if negb (isAuthenticated state) then NavigateTo "/login" else Children.

End App.

(* ===================================================================== *)
(** ** pages/LoginPage.tsx, with the two calls of [authAPI] it makes *)
(* ===================================================================== *)

Module LoginPage.
Import AuthStore Api.

(** The record [GET /auth/me] answers with; [full_name] may be missing. *)
Record UserInfo := {
  id : string;
  email : string;
  username : string;
  full_name : option string;
  role : string
}.

(** What the page does to the screen. *)
Inductive ui_effect :=
| ToastSuccess (message : string)
| ToastError (message : string)
| Navigate (to : string).

(** Where [onSubmit] stands: at its first [await], at its second (with
    the data of the first response in hand), or past its [finally]. *)
Inductive stage :=
| AwaitingLogin
| AwaitingMe (response_data : string)
| Finished.

(** The page while [onSubmit] runs: the request it awaits (with the store
    and the log of the client), the stage, the [isLoading] state and what
    went to the screen. *)
Record page := {
  request : machine;
  at_stage : stage;
  isLoading : bool;
  ui : list ui_effect
}.

(** The headers of [axios.create] (lines 183-188 of the client). *)
Definition default_headers : gmap string string :=
  {[ "Content-Type" := "application/json" ]}.

(** [api.get(url)] and [api.post(url, data, { headers })]: the headers of
    the call go over those of the instance. *)
Definition get (url : string) : AxiosRequestConfig :=
  {| Api.url := url; method := "get"; headers := default_headers;
     data := ""; _retry := false |}.

Definition post (url data : string) (hdrs : gmap string string)
  : AxiosRequestConfig :=
  {| Api.url := url; method := "post"; headers := hdrs ∪ default_headers;
     Api.data := data; _retry := false |}.

Section OnSubmit.

(** What the browser and axios do to the bodies: the serialisation of a
    [FormData], and the members read off the parsed [response.data]. *)
Variable FormData : list (string * string) -> string.
Variable tokens_of : string -> string * string.
Variable userInfo_of : string -> UserInfo.
Variable detail_of : string -> option string.

(** The request of [authAPI.login(email, password)]. *)
Definition authAPI_login (email password : string) : AxiosRequestConfig :=
  post "/auth/login" (FormData [("username", email); ("password", password)])
       {[ "Content-Type" := "multipart/form-data" ]}.

(** The request of [authAPI.getMe()]. *)
Definition authAPI_getMe : AxiosRequestConfig := get "/auth/me".

(** The user [onSubmit] hands to [login]:
    [fullName: userInfo.full_name || userInfo.username]. *)
Definition user_of (userInfo : UserInfo) : User :=
  {| AuthStore.id := id userInfo;
     AuthStore.email := email userInfo;
     AuthStore.username := username userInfo;
     fullName := match full_name userInfo with
                 | Some n => if truthy (Some n) then n else username userInfo
                 | None => username userInfo
                 end;
     AuthStore.role := role userInfo |}.

(** [error.response?.data?.detail || 'Login failed'] *)
Definition error_message (error : AxiosError) : string :=
  match response error with
  | Some r =>
      match detail_of (Api.response_data r) with
      | Some d => if truthy (Some d) then d else "Login failed"
      | None => "Login failed"
      end
  | None => "Login failed"
  end.

(** [onSubmit] up to its first [await]. *)
Definition onSubmit (st : Store) (email password : string) : page :=
  {| request := api st [] (authAPI_login email password);
     at_stage := AwaitingLogin; isLoading := true; ui := [] |}.

(** [onSubmit] after the request it awaits has moved to [m]: a resolved
    login goes on to [getMe], a resolved [getMe] to [login] of the store,
    the toast and the dashboard; a rejection of either goes to the
    [catch]; [finally] clears [isLoading]. *)
Definition resume (p : page) (m : machine) : page :=
  match at_stage p, at_ m with
  | AwaitingLogin, Settled (Resolved r) =>
      {| request := api (store m) (log m) authAPI_getMe;
         at_stage := AwaitingMe (Api.response_data r);
         isLoading := isLoading p; ui := ui p |}
  | AwaitingMe response, Settled (Resolved r) =>
      let userInfo := userInfo_of (Api.response_data r) in
      {| request :=
           {| store := login (Some (user_of userInfo))
                         (fst (tokens_of response)) (snd (tokens_of response))
                         (store m);
              at_ := at_ m; log := log m |};
         at_stage := Finished; isLoading := false;
         ui := ui p ++ [ToastSuccess "Welcome back!"; Navigate "/dashboard"] |}
  | AwaitingLogin, Settled (Rejected error)
  | AwaitingMe _, Settled (Rejected error) =>
      {| request := m; at_stage := Finished; isLoading := false;
         ui := ui p ++ [ToastError (error_message error)] |}
  | _, _ =>
      {| request := m; at_stage := at_stage p; isLoading := isLoading p;
         ui := ui p |}
  end.

(** One turn of the event loop while the page is up. *)
Definition step_page (p : page) (ev : event) : option page :=
  match step (request p) ev with
  | Some m => Some (resume p m)
  | None => None
  end.

Fixpoint run_page (p : page) (evs : list event) : option page :=
  match evs with
  | [] => Some p
  | ev :: evs' =>
      match step_page p ev with
      | Some p' => run_page p' evs'
      | None => None
      end
  end.

End OnSubmit.


End LoginPage.

(* ===================================================================== *)
(** ** pages/ShipmentsPage.tsx *)
(* ===================================================================== *)

Module ShipmentsPage.

Record Shipment := {
  id : string;
  trackingNumber : string;
  origin : string;
  destination : string;
  status : string;
  carrier : string;
  eta : string;
  items : Z
}.

Definition mockShipments : list Shipment :=
  [ {| id := "1"; trackingNumber := "CS20251231ABC"; origin := "Dhaka Central";
       destination := "Chittagong Hub"; status := "In Transit";
       carrier := "Sundarban Courier"; eta := "2025-01-02"; items := 45 |};
    {| id := "2"; trackingNumber := "CS20251230DEF";
       origin := "Supplier: ABC Ltd"; destination := "Dhaka Central";
       status := "Pending"; carrier := "SA Paribahan"; eta := "2025-01-03";
       items := 120 |};
    {| id := "3"; trackingNumber := "CS20251229GHI"; origin := "Dhaka Central";
       destination := "Sylhet Branch"; status := "Delivered";
       carrier := "Pathao"; eta := "2024-12-30"; items := 23 |};
    {| id := "4"; trackingNumber := "CS20251228JKL"; origin := "Chittagong Hub";
       destination := "Dhaka Central"; status := "In Transit";
       carrier := "Sundarban Courier"; eta := "2025-01-01"; items := 89 |};
    {| id := "5"; trackingNumber := "CS20251227MNO";
       origin := "Supplier: XYZ Corp"; destination := "Chittagong Hub";
       status := "Cancelled"; carrier := "RedX"; eta := "-"; items := 0 |} ].

(** [s.includes(sub)]: [sub] occurs in [s] at some position. *)
Fixpoint includes (s sub : string) : bool :=
  String.prefix sub s
  || match s with
     | EmptyString => false
     | String _ s' => includes s' sub
     end.

Section Filter.

(** [String.prototype.toLowerCase], which is the engine's. *)
Variable toLowerCase : string -> string.

(** The callback of [mockShipments.filter]. *)
Definition shown (searchTerm selectedStatus : string) (shipment : Shipment)
  : bool :=
  let matchesSearch :=
    includes (toLowerCase (trackingNumber shipment)) (toLowerCase searchTerm)
    || includes (toLowerCase (origin shipment)) (toLowerCase searchTerm)
    || includes (toLowerCase (destination shipment)) (toLowerCase searchTerm) in
  let matchesStatus :=
    String.eqb selectedStatus "all"
    || String.eqb (status shipment) selectedStatus in
  matchesSearch && matchesStatus.

(** The filter over any list of shipments, and [filteredShipments] as the
    page has it, over [mockShipments]. *)
Definition filterShipments (shipments : list Shipment)
  (searchTerm selectedStatus : string) : list Shipment :=
  List.filter (shown searchTerm selectedStatus) shipments.

Definition filteredShipments (searchTerm selectedStatus : string)
  : list Shipment :=
  filterShipments mockShipments searchTerm selectedStatus.

End Filter.

(** [getStatusColor] *)
Definition getStatusColor (status : string) : string :=
  if String.eqb status "Delivered" then
    "bg-green-100 text-green-800 dark:bg-green-900 dark:text-green-200"
  else if String.eqb status "In Transit" then
    "bg-blue-100 text-blue-800 dark:bg-blue-900 dark:text-blue-200"
  else if String.eqb status "Pending" then
    "bg-yellow-100 text-yellow-800 dark:bg-yellow-900 dark:text-yellow-200"
  else if String.eqb status "Cancelled" then
    "bg-red-100 text-red-800 dark:bg-red-900 dark:text-red-200"
  else "bg-gray-100 text-gray-800".

(** The values of the status [<select>]. *)
Definition status_options : list string :=
  ["all"; "Pending"; "In Transit"; "Delivered"; "Cancelled"].

End ShipmentsPage.

Import AuthStore Api.

(* ===================================================================== *)
(** ** Invariants and sample values used below *)
(* ===================================================================== *)

(** The storage is as it was at creation, or the record under [name] is
    the partialised state and the rest is as it was. *)
Definition in_step (storage : gmap string (list (string * json)))
  (st : Store) : Prop :=
  localStorage st = storage
  \/ localStorage st = <[name := partialize (getState st)]> storage.

(** The store has written nothing since it was created over [storage],
    or the record under [name] is the partialised state and the rest of
    the storage is as it was found. *)
Definition untouched_or_written (storage : gmap string (list (string * json)))
  (st : Store) : Prop :=
  st = create storage
  \/ localStorage st = <[name := partialize (getState st)]> storage.

(** A storage in which a signed-in session was left. *)
Definition storage_with_session : gmap string (list (string * json)) :=
  {[ name := [("user", JObject [("id", JString "demo-user-id");
                                ("email", JString "demo@chainsense.ai");
                                ("username", JString "demo");
                                ("fullName", JString "Demo User");
                                ("role", JString "admin")]);
              ("accessToken", JString "T1");
              ("refreshToken", JString "R1");
              ("isAuthenticated", JBool true)] ]}.


(** The invariant the session is meant to have: the flag is set exactly
    when user and both tokens are. *)
Definition flag_with_user_and_tokens (st : Store) : Prop :=
  let s := getState st in
  isAuthenticated s = true <->
  is_Some (user s) /\ is_Some (accessToken s) /\ is_Some (refreshToken s).

(** How many more times the request can go on the wire, and the refresh
    endpoint be called, from where the request stands. *)
Definition sends_left (p : phase) : nat :=
  match p with
  | OnWire cfg => if _retry cfg then 0 else 1
  | Refreshing _ => 1
  | Settled _ => 0
  end.

Definition refreshes_left (p : phase) : nat :=
  match p with
  | OnWire cfg => if _retry cfg then 0 else 1
  | _ => 0
  end.

(** While the refresh is pending the original request carries the mark. *)
Definition marked (p : phase) : Prop :=
  match p with
  | Refreshing error => _retry (config error) = true
  | _ => True
  end.

(** What is still allowed, added to what has been done, never grows. *)
Definition within_budget (m m' : machine) : Prop :=
  marked (at_ m')
  /\ sends (log m') + sends_left (at_ m') <= sends (log m) + sends_left (at_ m)
  /\ refreshes (log m') + refreshes_left (at_ m')
     <= refreshes (log m) + refreshes_left (at_ m).


(** The demo user of the login page. *)
Definition demo_user : User :=
  {| id := "demo-user-id"; email := "demo@chainsense.ai"; username := "demo";
     fullName := "Demo User"; role := "admin" |}.

Definition only_role (r : string) : PartialUser :=
  {| id_opt := None; email_opt := None; username_opt := None;
     fullName_opt := None; role_opt := Some r |}.

(** [api.get('/shipments')] *)
Definition get_shipments : AxiosRequestConfig :=
  {| url := "/shipments"; method := "get";
     headers := {[ "Content-Type" := "application/json" ]};
     data := ""; _retry := false |}.

(** [api.get('/inventory/summary/overview')] *)
Definition get_inventory_summary : AxiosRequestConfig :=
  {| url := "/inventory/summary/overview"; method := "get";
     headers := {[ "Content-Type" := "application/json" ]};
     data := ""; _retry := false |}.

Definition unauthorized : AxiosResponse :=
  {| status := 401; response_data := "token expired" |}.

Definition ok : AxiosResponse :=
  {| status := 200; response_data := "[]" |}.

Definition server_error : AxiosResponse :=
  {| status := 500; response_data := "internal error" |}.

(** A signed-in store: the demo user with tokens T1 and R1. *)
Definition signed_in : Store :=
  login (Some demo_user) "T1" "R1" (create ∅).

(** [{ ...p, ...q }] of two partial users: the keys of [q] win. *)
Definition override (p q : PartialUser) : PartialUser :=
  {| id_opt := match id_opt q with Some v => Some v | None => id_opt p end;
     email_opt := match email_opt q with Some v => Some v | None => email_opt p end;
     username_opt :=
       match username_opt q with Some v => Some v | None => username_opt p end;
     fullName_opt :=
       match fullName_opt q with Some v => Some v | None => fullName_opt p end;
     role_opt := match role_opt q with Some v => Some v | None => role_opt p end |}.

(** The store operations among the events of an execution. *)
Definition app_ops (evs : list event) : list op :=
  omap (fun ev => match ev with App o => Some o | _ => None end) evs.

(** How many events of an execution came from the network. *)
Definition network_events (evs : list event) : nat :=
  length (List.filter from_network evs).

(** A reply that is not a 401. *)
Definition not_401 (r : reply) : Prop :=
  match r with
  | Answered resp => status resp <> 401%Z
  | NoAnswer => True
  end.

(** The five things a request can have done, with where it then stands:
    sent; sent and logged out for want of a refresh token; sent and
    refreshing; refreshed in vain and logged out; refreshed, logged in and
    sent again with the new token. *)
Definition trace_shape (first_sent : AxiosRequestConfig) (m : machine)
  : Prop :=
  (log m = [Sent first_sent]
   /\ (at_ m = OnWire first_sent \/ exists r, at_ m = Settled (settle first_sent r)))
  \/ (log m = [Sent first_sent; CalledLogout]
      /\ exists resp, status resp = 401%Z
         /\ at_ m = Settled (Rejected {| config := mark_retry first_sent;
                                         response := Some resp |}))
  \/ (exists rt resp,
        log m = [Sent first_sent; RefreshPosted rt]
        /\ rt <> "" /\ status resp = 401%Z
        /\ at_ m = Refreshing {| config := mark_retry first_sent;
                                 response := Some resp |})
  \/ (exists rt resp,
        log m = [Sent first_sent; RefreshPosted rt; CalledLogout]
        /\ rt <> "" /\ status resp = 401%Z
        /\ at_ m = Settled (Rejected {| config := mark_retry first_sent;
                                        response := Some resp |}))
  \/ (exists rt u a r second_sent,
        log m = [Sent first_sent; RefreshPosted rt; CalledLogin u a r;
                 Sent second_sent]
        /\ rt <> ""
        /\ second_sent
           = with_header "Authorization" ("Bearer " +:+ a) (mark_retry first_sent)
        /\ (at_ m = OnWire second_sent
            \/ exists reply, at_ m = Settled (settle second_sent reply))).

(** How many more events of the network the request can take from where
    it stands. *)
Definition net_left (p : phase) : nat :=
  match p with
  | OnWire cfg => if _retry cfg then 1 else 3
  | Refreshing _ => 2
  | Settled _ => 0
  end.

(** The request is on the wire or settled, not waiting for a refresh. *)
Definition not_refreshing (p : phase) : Prop :=
  match p with
  | Refreshing _ => False
  | _ => True
  end.

(** The request has not settled. *)
Definition pending (p : phase) : Prop :=
  match p with
  | Settled _ => False
  | _ => True
  end.

(** What holds of the login page at every moment of [onSubmit]: until it
    is finished it is loading, has put nothing on the screen and awaits a
    request that has not settled; when it is finished it is not loading,
    its last request has settled, and the screen got either one error
    toast or the welcome toast followed by the way to the dashboard. *)
Definition page_consistent (p : LoginPage.page) : Prop :=
  match LoginPage.at_stage p with
  | LoginPage.Finished =>
      LoginPage.isLoading p = false
      /\ (exists o, at_ (LoginPage.request p) = Settled o)
      /\ ((exists message, LoginPage.ui p = [LoginPage.ToastError message])
          \/ LoginPage.ui p = [LoginPage.ToastSuccess "Welcome back!";
                               LoginPage.Navigate "/dashboard"])
  | _ =>
      LoginPage.isLoading p = true /\ LoginPage.ui p = []
      /\ pending (at_ (LoginPage.request p)) /\ marked (at_ (LoginPage.request p))
  end.

(** How many more events of the network [onSubmit] can take. *)
Definition page_net_left (p : LoginPage.page) : nat :=
  match LoginPage.at_stage p with
  | LoginPage.AwaitingLogin => net_left (at_ (LoginPage.request p)) + 3
  | LoginPage.AwaitingMe _ => net_left (at_ (LoginPage.request p))
  | LoginPage.Finished => 0
  end.

(** A lower-casing of the letters A to Z, for the examples. *)
Definition ascii_lower (c : Ascii.ascii) : Ascii.ascii :=
  let n := Ascii.nat_of_ascii c in
  if (65 <=? n)%nat && (n <=? 90)%nat then Ascii.ascii_of_nat (n + 32) else c.

Fixpoint lower (s : string) : string :=
  match s with
  | EmptyString => EmptyString
  | String c s' => String (ascii_lower c) (lower s')
  end.

(** The bodies of the examples: a token pair and a user record, picked
    by the text of the body. *)
Definition sample_tokens_of (body : string) : string * string :=
  if String.eqb body "tokens" then ("T1", "R1") else ("", "").

Definition sample_userInfo_of (body : string) : LoginPage.UserInfo :=
  {| LoginPage.id := "7"; LoginPage.email := "a@b.co";
     LoginPage.username := "ann"; LoginPage.full_name := None;
     LoginPage.role := body |}.

Definition sample_detail_of (body : string) : option string :=
  if String.eqb body "" then None else Some body.

Definition sample_FormData (fields : list (string * string)) : string :=
  foldr (fun kv acc => kv.1 +:+ "=" +:+ kv.2 +:+ ";" +:+ acc) "" fields.

(** Membership of a key in a list of names written out: one case per
    name, and no case left when the key is none of them. *)
Ltac key_cases H :=
  repeat (apply elem_of_cons in H as [-> | H]); [ .. | by apply elem_of_nil in H ].

Ltac no_such_key H :=
  repeat (apply elem_of_cons in H as [H | H]; [discriminate H|]);
  by apply elem_of_nil in H.

(* ===================================================================== *)
(** ** The session store *)
(* ===================================================================== *)

Section StoreFacts.

Implicit Types (st : Store) (s : AuthState) (f : AuthState -> Patch).

Lemma getState_login st u a r :
  getState (login u a r st) =
  {| user := u; accessToken := Some a; refreshToken := Some r;
     isAuthenticated := true |}.
Proof. reflexivity. Qed.

Lemma getState_logout st : getState (logout st) = initial.
Proof. reflexivity. Qed.

Lemma getState_updateUser st p :
  getState (updateUser p st) =
  {| user := (fun u => spread u p) <$> user (getState st);
     accessToken := accessToken (getState st);
     refreshToken := refreshToken (getState st);
     isAuthenticated := isAuthenticated (getState st) |}.
Proof. unfold updateUser, set, assign; simpl. by destruct (user (getState st)). Qed.

(** Every write goes through [set], which leaves the record in step with
    the state and touches no other key. *)
Lemma set_localStorage f st :
  localStorage (set f st) !! name = Some (partialize (getState (set f st)))
  /\ forall k, k <> name -> localStorage (set f st) !! k = localStorage st !! k.
Proof.
  unfold set; simpl. split.
  - apply lookup_insert_eq.
  - intros k Hk. by apply lookup_insert_ne.
Qed.

Lemma spread_get u p k :
  get k (spread u p) = default (get k u) (given k p).
Proof. by destruct k. Qed.

End StoreFacts.

(** C7. [updateUser] on a store whose user is [null] leaves the state as
    it is; on a store with a user it merges the given keys into the user
    (a key that is given takes the given value, a key that is not keeps
    its value) and leaves [accessToken], [refreshToken] and
    [isAuthenticated] as they were. *)
Theorem updateUser_merges_into_user_only :
  (forall (st : Store) (userData : PartialUser),
     user (getState st) = None ->
     getState (updateUser userData st) = getState st)
  /\
  (forall (st : Store) (userData : PartialUser) (u : User),
     user (getState st) = Some u ->
     exists u',
       user (getState (updateUser userData st)) = Some u'
       /\ (forall k v, given k userData = Some v -> get k u' = v)
       /\ (forall k, given k userData = None -> get k u' = get k u)
       /\ accessToken (getState (updateUser userData st))
          = accessToken (getState st)
       /\ refreshToken (getState (updateUser userData st))
          = refreshToken (getState st)
       /\ isAuthenticated (getState (updateUser userData st))
          = isAuthenticated (getState st)).
Proof.
  split.
  - intros st p Hu. rewrite getState_updateUser, Hu.
    destruct (getState st); simpl in *; by subst.
  - intros st p u Hu. exists (spread u p).
    rewrite getState_updateUser, Hu; simpl.
    repeat split.
    + intros k v Hk. by rewrite spread_get, Hk.
    + intros k Hk. by rewrite spread_get, Hk.
Qed.

Lemma updateUser_merges_into_user_only_witness :
  getState (updateUser (only_role "viewer") (create ∅)) = getState (create ∅)
  /\ exists u',
       user (getState (updateUser (only_role "viewer") signed_in)) = Some u'
       /\ get Krole u' = "viewer"
       /\ get Kemail u' = "demo@chainsense.ai".
Proof.
  split.
  - apply (proj1 updateUser_merges_into_user_only). reflexivity.
  - destruct (proj2 updateUser_merges_into_user_only
                signed_in (only_role "viewer") demo_user eq_refl)
      as (u' & Hu & Hgiven & Hkept & _).
    exists u'. split; [exact Hu|]. split.
    + apply Hgiven. reflexivity.
    + rewrite (Hkept Kemail); reflexivity.
Defined.

(* ===================================================================== *)
(** ** Properties of the store that every execution keeps *)
(* ===================================================================== *)

Section StoreInvariant.

Variable P : Store -> Prop.

(** The three ways the store is written: a component's call, the
    interceptor's [login] with the user the store holds, and [logout]. *)
Hypothesis P_op : forall st o, P st -> P (apply_op o st).
Hypothesis P_refresh_login :
  forall st a r, P st -> P (login (user (getState st)) a r st).

Lemma invariant_logout st : P st -> P (logout st).
Proof. apply (P_op st Logout). Qed.

Lemma invariant_response_rejected m e :
  P (store m) -> P (store (response_rejected m e)).
Proof.
  intros H. unfold response_rejected.
  destruct (status_is_401 e && negb (_retry (config e))); [|exact H].
  destruct (refreshToken (getState (store m))) as [rt|];
    [destruct (truthy (Some rt))|]; simpl; try exact H;
    by apply invariant_logout.
Qed.

Lemma invariant_step m ev m' :
  step m ev = Some m' -> P (store m) -> P (store m').
Proof.
  unfold step. intros Hstep H.
  destruct ev as [o | r | r]; destruct (at_ m) as [cfg | e | out];
    inversion Hstep; subst; clear Hstep; simpl.
  - by apply P_op.
  - by apply P_op.
  - by apply P_op.
  - unfold transport_settled. destruct r as [resp|].
    + destruct (validateStatus (status resp)); [exact H|].
      by apply invariant_response_rejected.
    + by apply invariant_response_rejected.
  - destruct r as [a rt|]; simpl.
    + by apply P_refresh_login.
    + by apply invariant_logout.
Qed.

Lemma invariant_run evs : forall m m',
  run m evs = Some m' -> P (store m) -> P (store m').
Proof.
  induction evs as [|ev evs IH]; intros m m' Hrun H; simpl in Hrun.
  - by inversion Hrun; subst.
  - destruct (step m ev) as [m1|] eqn:Hstep; [|discriminate].
    eapply IH; [exact Hrun|]. eapply invariant_step; eauto.
Qed.

Lemma invariant_reachable storage st :
  P (create storage) -> reachable storage st -> P st.
Proof.
  intros H0. induction 1 as [| st o _ IH | st cfg evs m _ IH Hrun].
  - exact H0.
  - by apply P_op.
  - eapply invariant_run; [exact Hrun|]. exact IH.
Qed.

End StoreInvariant.

(* ===================================================================== *)
(** ** What [persist] writes *)
(* ===================================================================== *)

Lemma in_step_set storage f st : in_step storage st -> in_step storage (set f st).
Proof.
  intros [H | H]; right; unfold set; simpl; rewrite H.
  - reflexivity.
  - apply insert_insert_eq.
Qed.

Lemma reachable_in_step storage st : reachable storage st -> in_step storage st.
Proof.
  apply (invariant_reachable (in_step storage)).
  - intros st' o. destruct o; apply in_step_set.
  - intros st' a r. apply in_step_set.
  - by left.
Qed.

Lemma untouched_or_written_set storage f st :
  untouched_or_written storage st -> untouched_or_written storage (set f st).
Proof.
  intros [-> | H]; right; unfold set; simpl.
  - reflexivity.
  - rewrite H. apply insert_insert_eq.
Qed.

Lemma reachable_untouched_or_written storage st :
  reachable storage st -> untouched_or_written storage st.
Proof.
  apply (invariant_reachable (untouched_or_written storage)).
  - intros st' o. destruct o; apply untouched_or_written_set.
  - intros st' a r. apply untouched_or_written_set.
  - by left.
Qed.

(** A record the store wrote is read back as the state it was written
    from. *)
Lemma rehydrate_partialize s current : rehydrate (partialize s) current = s.
Proof.
  destruct s as [[[i e u f r]|] [a|] [t|] b]; reflexivity.
Qed.

Lemma create_restores storage s :
  storage !! name = Some (partialize s) -> getState (create storage) = s.
Proof. intros H. unfold create. simpl. rewrite H. apply rehydrate_partialize. Qed.

(** C9. For every reachable store, over any storage found at creation.
    Either the store has written nothing yet, and store and storage are
    as at creation, or the record under ['chainsense-auth'] is there and
    is made of exactly the four fields [user], [accessToken],
    [refreshToken] and [isAuthenticated], in this order, with the values
    the store holds.  When the record found at creation is one the store
    wrote, the session restored from it is the session it was written
    from, so that the record is the four fields of the store from
    creation on.  Every operation, called by a component or by the
    client, writes the record.  None of the operation members [login],
    [logout], [updateUser] is among the fields, and no other key of the
    storage is written. *)
Theorem persisted_record_is_the_four_data_fields
    (storage : gmap string (list (string * json))) (st : Store) :
  reachable storage st ->
  let four_fields (s : AuthState) :=
    [("user", json_of_nullable json_of_user (user s));
     ("accessToken", json_of_nullable JString (accessToken s));
     ("refreshToken", json_of_nullable JString (refreshToken s));
     ("isAuthenticated", JBool (isAuthenticated s))] in
  (st = create storage
   \/ localStorage st !! name = Some (four_fields (getState st)))
  /\ (forall s0, storage !! name = Some (four_fields s0) ->
        getState (create storage) = s0
        /\ localStorage st !! name = Some (four_fields (getState st)))
  /\ (forall o,
        localStorage (apply_op o st) !! name
        = Some (four_fields (getState (apply_op o st))))
  /\ (forall a r,
        localStorage (login (user (getState st)) a r st) !! name
        = Some (four_fields (getState (login (user (getState st)) a r st))))
  /\ (forall s,
        (four_fields s).*1
        = ["user"; "accessToken"; "refreshToken"; "isAuthenticated"]
        /\ (forall k, k ∈ operation_members -> k ∉ (four_fields s).*1)
        /\ (forall k, k ∈ AuthState_members ->
              (k ∈ (four_fields s).*1 <-> k ∉ operation_members)))
  /\ (forall k, k <> name -> localStorage st !! k = storage !! k).
Proof.
  intros Hreach four_fields.
  assert (Hops : forall s k, k ∈ operation_members -> k ∉ (four_fields s).*1).
  { intros s k Hk Hin. unfold operation_members in Hk. simpl in Hin.
    key_cases Hk; no_such_key Hin. }
  assert (Hkeys : forall s k, k ∈ AuthState_members ->
            (k ∈ (four_fields s).*1 <-> k ∉ operation_members)).
  { intros s k Hk. split.
    - intros Hin Hop. exact (Hops s k Hop Hin).
    - intros Hnot. unfold AuthState_members in Hk. simpl.
      key_cases Hk; try (by repeat constructor);
        exfalso; apply Hnot; unfold operation_members; by repeat constructor. }
  pose proof (reachable_untouched_or_written storage st Hreach) as Hst.
  split; [|split; [|split; [|split; [|split]]]].
  - destruct Hst as [-> | H]; [by left|]. right. rewrite H.
    apply lookup_insert_eq.
  - intros s0 Hfound.
    pose proof (create_restores storage s0 Hfound) as Hrestored.
    split; [exact Hrestored|].
    destruct Hst as [-> | H].
    + rewrite Hrestored. exact Hfound.
    + rewrite H. apply lookup_insert_eq.
  - intros o. destruct o; apply set_localStorage.
  - intros a r. apply set_localStorage.
  - intros s. split; [reflexivity|]. split; [apply Hops | apply Hkeys].
  - intros k Hk. destruct Hst as [-> | H]; [done|].
    rewrite H. by apply lookup_insert_ne.
Qed.

Lemma persisted_record_is_the_four_data_fields_witness :
  getState (create storage_with_session) = getState signed_in
  /\ localStorage (updateUser (only_role "viewer") (create storage_with_session))
       !! name
     = Some [("user", JObject [("id", JString "demo-user-id");
                               ("email", JString "demo@chainsense.ai");
                               ("username", JString "demo");
                               ("fullName", JString "Demo User");
                               ("role", JString "viewer")]);
             ("accessToken", JString "T1");
             ("refreshToken", JString "R1");
             ("isAuthenticated", JBool true)].
Proof.
  destruct (persisted_record_is_the_four_data_fields storage_with_session
              (create storage_with_session) (reach_create _))
    as (_ & Hrestored & Hwritten & _).
  split.
  - apply (Hrestored (getState signed_in)). reflexivity.
  - etransitivity; [exact (Hwritten (UpdateUser (only_role "viewer")))|].
    vm_compute. reflexivity.
Defined.

(** The record is there as soon as one operation has run. *)
Lemma persisted_after_write f st :
  localStorage (set f st) !! name = Some (partialize (getState (set f st))).
Proof. apply set_localStorage. Qed.

(* ===================================================================== *)
(** ** The request interceptor *)
(* ===================================================================== *)

Lemma truthy_Some_iff (t : string) : truthy (Some t) = true <-> t <> "".
Proof. destruct t; simpl; split; congruence. Qed.

Lemma request_interceptor_truthy state cfg tok :
  accessToken state = Some tok -> tok <> "" ->
  request_interceptor state cfg
  = with_header "Authorization" ("Bearer " +:+ tok) cfg.
Proof.
  intros Htok Hne. unfold request_interceptor. rewrite Htok.
  apply truthy_Some_iff in Hne. by rewrite Hne.
Qed.

Lemma request_interceptor_falsy state cfg :
  truthy (accessToken state) = false -> request_interceptor state cfg = cfg.
Proof.
  unfold request_interceptor. destruct (accessToken state) as [tok|]; [|done].
  by intros ->.
Qed.

(** C6, as the code has it. A request goes out with
    [Authorization: Bearer <token>] when the access token of the store is
    neither [null] nor the empty string, everything else of the request
    being as the caller gave it; with a [null] or empty access token the
    request goes out as it is. *)
Theorem request_interceptor_attaches_truthy_token
    (st : Store) (l : list effect) (cfg : AxiosRequestConfig) :
  (forall tok,
     accessToken (getState st) = Some tok -> tok <> "" ->
     exists cfg',
       api st l cfg = {| store := st; at_ := OnWire cfg'; log := l ++ [Sent cfg'] |}
       /\ headers cfg' !! "Authorization" = Some ("Bearer " +:+ tok)
       /\ (forall k, k <> "Authorization" -> headers cfg' !! k = headers cfg !! k)
       /\ url cfg' = url cfg /\ method cfg' = method cfg
       /\ data cfg' = data cfg /\ _retry cfg' = _retry cfg)
  /\
  (accessToken (getState st) = None \/ accessToken (getState st) = Some "" ->
   api st l cfg = {| store := st; at_ := OnWire cfg; log := l ++ [Sent cfg] |}).
Proof.
  split.
  - intros tok Htok Hne.
    exists (with_header "Authorization" ("Bearer " +:+ tok) cfg).
    unfold api. rewrite (request_interceptor_truthy _ _ _ Htok Hne).
    repeat split; simpl.
    + apply lookup_insert_eq.
    + intros k Hk. by apply lookup_insert_ne.
  - intros H. unfold api. rewrite request_interceptor_falsy; [done|].
    by destruct H as [-> | ->].
Qed.

Lemma request_interceptor_attaches_truthy_token_witness :
  (exists cfg',
     api signed_in [] get_shipments
     = {| store := signed_in;
          at_ := OnWire cfg'; log := [Sent cfg'] |}
     /\ headers cfg' !! "Authorization" = Some "Bearer T1"
     /\ headers cfg' !! "Content-Type" = Some "application/json")
  /\ api (create ∅) [] get_shipments
     = {| store := create ∅; at_ := OnWire get_shipments;
          log := [Sent get_shipments] |}.
Proof.
  split.
  - destruct (proj1 (request_interceptor_attaches_truthy_token
                       signed_in []
                       get_shipments) "T1" eq_refl)
      as (cfg' & Hapi & Hauth & Hrest & _).
    + discriminate.
    + exists cfg'. split; [exact Hapi|]. split; [exact Hauth|].
      rewrite Hrest; [reflexivity | discriminate].
  - apply (proj2 (request_interceptor_attaches_truthy_token
                    (create ∅) [] get_shipments)).
    left; reflexivity.
Defined.

(** C6 as it is written fails: an access token that is not [null] but
    empty is not attached. *)
Lemma nonnull_token_not_always_attached :
  ~ (forall (state : AuthState) (cfg : AxiosRequestConfig) (tok : string),
       accessToken state = Some tok ->
       headers (request_interceptor state cfg) !! "Authorization"
       = Some ("Bearer " +:+ tok)).
Proof.
  intros H.
  specialize (H {| user := Some demo_user; accessToken := Some "";
                   refreshToken := Some "R1"; isAuthenticated := true |}
                get_shipments "" eq_refl).
  vm_compute in H. discriminate.
Qed.

(** C10. With the empty string as access token the request interceptor
    leaves the request as it is: no [Authorization] header is attached,
    and a request that had none goes on the wire without one. *)
Theorem empty_access_token_attaches_nothing
    (st : Store) (l : list effect) (cfg : AxiosRequestConfig) :
  accessToken (getState st) = Some "" ->
  request_interceptor (getState st) cfg = cfg
  /\ api st l cfg = {| store := st; at_ := OnWire cfg; log := l ++ [Sent cfg] |}
  /\ (headers cfg !! "Authorization" = None ->
      forall sent, Sent sent ∈ log (api st l cfg) -> Sent sent ∉ l ->
        headers sent !! "Authorization" = None).
Proof.
  intros Htok.
  assert (Hri : request_interceptor (getState st) cfg = cfg).
  { apply request_interceptor_falsy. by rewrite Htok. }
  split; [exact Hri|]. unfold api. rewrite Hri. split; [done|].
  simpl. intros Hnone sent Hin Hnot.
  apply elem_of_app in Hin as [Hin | Hin]; [done|].
  apply list_elem_of_singleton in Hin. by inversion Hin; subst.
Qed.

Lemma empty_access_token_attaches_nothing_witness :
  request_interceptor (getState (login (Some demo_user) "" "R1" (create ∅)))
    get_shipments = get_shipments
  /\ api (login (Some demo_user) "" "R1" (create ∅)) [] get_shipments
     = {| store := login (Some demo_user) "" "R1" (create ∅);
          at_ := OnWire get_shipments; log := [Sent get_shipments] |}
  /\ (headers get_shipments !! "Authorization" = None ->
      forall sent,
        Sent sent ∈ log (api (login (Some demo_user) "" "R1" (create ∅)) []
                           get_shipments) ->
        Sent sent ∉ [] ->
        headers sent !! "Authorization" = None).
Proof.
  apply (empty_access_token_attaches_nothing
           (login (Some demo_user) "" "R1" (create ∅)) [] get_shipments).
  reflexivity.
Defined.

(* ===================================================================== *)
(** ** The response interceptor *)
(* ===================================================================== *)

(** The handlers are unfolded by their lemmas, not by simplification. *)
#[local] Arguments transport_settled : simpl never.
#[local] Arguments response_rejected : simpl never.
#[local] Arguments refresh_settled : simpl never.
#[local] Arguments api : simpl never.

Section Handler.

Implicit Types (m : machine) (e : AxiosError) (cfg : AxiosRequestConfig).

Lemma status_is_401_spec e :
  status_is_401 e = true <->
  exists resp, response e = Some resp /\ status resp = 401%Z.
Proof.
  unfold status_is_401. destruct (response e) as [resp|]; split.
  - intros H. exists resp. split; [done|]. by apply Z.eqb_eq.
  - intros (r & [= <-] & H). by apply Z.eqb_eq.
  - discriminate.
  - by intros (r & [=] & _).
Qed.

Lemma validateStatus_401 resp : status resp = 401%Z -> validateStatus (status resp) = false.
Proof. by intros ->. Qed.

(** The guard of the handler fails: the error goes to the caller. *)
Lemma response_rejected_passes m e :
  status_is_401 e && negb (_retry (config e)) = false ->
  response_rejected m e
  = {| store := store m; at_ := Settled (Rejected e); log := log m |}.
Proof. intros H. unfold response_rejected. by rewrite H. Qed.

(** The guard holds and the refresh token is truthy: the refresh goes out. *)
Lemma response_rejected_refreshes m e rt :
  status_is_401 e = true -> _retry (config e) = false ->
  refreshToken (getState (store m)) = Some rt -> rt <> "" ->
  response_rejected m e
  = {| store := store m;
       at_ := Refreshing {| config := mark_retry (config e);
                            response := response e |};
       log := log m ++ [RefreshPosted rt] |}.
Proof.
  intros H401 Hretry Hrt Hne. unfold response_rejected.
  rewrite H401, Hretry, Hrt. cbn [andb negb].
  destruct rt; [done | reflexivity].
Qed.

(** The guard holds and the refresh token is falsy: [logout], then the
    error goes to the caller. *)
Lemma response_rejected_logs_out m e :
  status_is_401 e = true -> _retry (config e) = false ->
  truthy (refreshToken (getState (store m))) = false ->
  response_rejected m e
  = {| store := logout (store m);
       at_ := Settled (Rejected {| config := mark_retry (config e);
                                   response := response e |});
       log := log m ++ [CalledLogout] |}.
Proof.
  intros H401 Hretry Hrt. unfold response_rejected.
  rewrite H401, Hretry. cbn [andb negb].
  destruct (refreshToken (getState (store m))) as [rt|]; [|done].
  by rewrite Hrt.
Qed.

(** A request that carries the mark settles with the transport's reply. *)
Lemma transport_settled_marked m cfg r :
  _retry cfg = true ->
  transport_settled m cfg r
  = {| store := store m; at_ := Settled (settle cfg r); log := log m |}.
Proof.
  intros Hretry. unfold transport_settled, settle.
  destruct r as [resp|].
  - destruct (validateStatus (status resp)); [done|].
    apply response_rejected_passes. simpl. rewrite Hretry.
    apply andb_false_r.
  - apply response_rejected_passes. done.
Qed.

Lemma request_interceptor_retry state cfg :
  _retry (request_interceptor state cfg) = _retry cfg.
Proof.
  unfold request_interceptor.
  destruct (accessToken state) as [tok|]; [|done].
  by destruct (truthy (Some tok)).
Qed.

End Handler.

(** *** Executions *)

Section Executions.

Implicit Types (m : machine) (evs : list event) (ops : list op).

Lemma run_app evs1 : forall m evs2,
  run m (evs1 ++ evs2) = run m evs1 ≫= fun m' => run m' evs2.
Proof.
  induction evs1 as [|ev evs1 IH]; intros m evs2; simpl; [done|].
  destruct (step m ev); [apply IH | done].
Qed.

(** Calls of other components while the request is pending change the
    store and nothing else. *)
Lemma run_App_ops ops : forall m evs,
  run m ((App <$> ops) ++ evs)
  = run {| store := apply_ops ops (store m); at_ := at_ m; log := log m |} evs.
Proof.
  induction ops as [|o ops IH]; intros [st p l] evs; simpl; [done|].
  by rewrite IH.
Qed.

Lemma run_cons m ev m1 evs :
  step m ev = Some m1 -> run m (ev :: evs) = run m1 evs.
Proof. intros H. simpl. by rewrite H. Qed.

Lemma step_Transport m cfg r :
  at_ m = OnWire cfg -> step m (Transport r) = Some (transport_settled m cfg r).
Proof. unfold step. by intros ->. Qed.

Lemma step_Refresh m error r :
  at_ m = Refreshing error ->
  step m (Refresh r) = Some (refresh_settled m error r).
Proof. unfold step. by intros ->. Qed.

Lemma transport_settled_401 m cfg resp :
  status resp = 401%Z ->
  transport_settled m cfg (Answered resp)
  = response_rejected m {| config := cfg; response := Some resp |}.
Proof. intros H. unfold transport_settled. by rewrite (validateStatus_401 _ H). Qed.

(** Once settled, the request takes no event from the network and does
    nothing more. *)
Lemma step_settled m o ev m' :
  at_ m = Settled o -> step m ev = Some m' ->
  at_ m' = Settled o /\ log m' = log m /\ from_network ev = false.
Proof.
  unfold step. intros Hat Hstep. rewrite Hat in Hstep.
  destruct ev; inversion Hstep; subst; done.
Qed.

Lemma run_settled evs : forall m o m',
  at_ m = Settled o -> run m evs = Some m' ->
  at_ m' = Settled o /\ log m' = log m
  /\ Forall (fun ev => from_network ev = false) evs.
Proof.
  induction evs as [|ev evs IH]; intros m o m' Hat Hrun; simpl in Hrun.
  - inversion Hrun; subst. done.
  - destruct (step m ev) as [m1|] eqn:Hstep; [|done].
    destruct (step_settled _ _ _ _ Hat Hstep) as (Hat1 & Hlog1 & Hev).
    destruct (IH _ _ _ Hat1 Hrun) as (? & ? & ?).
    repeat split; [done | congruence | by constructor].
Qed.

Lemma settled_refuses_network m o ev :
  at_ m = Settled o -> from_network ev = true -> step m ev = None.
Proof. unfold step. intros ->. by destruct ev. Qed.

Lemma sends_snoc (l : list effect) e : sends (l ++ [e]) = sends l + (if is_Sent e then 1 else 0).
Proof.
  unfold sends. rewrite List.filter_app, length_app. simpl.
  by destruct (is_Sent e).
Qed.

Lemma refreshes_snoc (l : list effect) e :
  refreshes (l ++ [e]) = refreshes l + (if is_RefreshPosted e then 1 else 0).
Proof.
  unfold refreshes. rewrite List.filter_app, length_app. simpl.
  by destruct (is_RefreshPosted e).
Qed.

Lemma no_transport_replies evs :
  Forall (fun ev => from_network ev = false) evs -> transport_replies evs = [].
Proof.
  induction 1 as [|ev evs Hev _ IH]; [done|].
  unfold transport_replies in *. simpl. destruct ev; try done.
Qed.

End Executions.

(** C8. An error whose response is not a 401, a transport failure with no
    response among them, is handed to the caller as it is: the handler
    rejects with the very error, the store and the log are as before, so
    nothing was retried and the refresh endpoint was not called, and in
    whatever follows the client does nothing more for the request. *)
Theorem non_401_error_goes_to_caller_unchanged
    (m : machine) (error : AxiosError) :
  (forall resp, response error = Some resp -> status resp <> 401%Z) ->
  response_rejected m error
  = {| store := store m; at_ := Settled (Rejected error); log := log m |}
  /\ (forall cfg, at_ m = OnWire cfg -> config error = cfg ->
      response error = None ->
      step m (Transport NoAnswer) = Some (response_rejected m error))
  /\ (forall evs m',
        run (response_rejected m error) evs = Some m' ->
        at_ m' = Settled (Rejected error) /\ log m' = log m
        /\ sends (log m') = sends (log m)
        /\ refreshes (log m') = refreshes (log m)
        /\ Forall (fun ev => from_network ev = false) evs).
Proof.
  intros Hnot.
  assert (H : response_rejected m error
              = {| store := store m; at_ := Settled (Rejected error);
                   log := log m |}).
  { apply response_rejected_passes.
    destruct (status_is_401 error) eqn:H401; [|done].
    apply status_is_401_spec in H401 as (resp & Hresp & Hst).
    by destruct (Hnot resp Hresp). }
  split; [exact H|]. split.
  - intros cfg Hat Hcfg Hnone. unfold step. rewrite Hat. simpl.
    destruct error as [c r]; simpl in *; by subst.
  - intros evs m' Hrun. rewrite H in Hrun.
    eapply run_settled in Hrun as (? & Hl & ?); [|reflexivity].
    simpl in Hl. rewrite Hl. done.
Qed.

Lemma non_401_error_goes_to_caller_unchanged_witness :
  response_rejected (api signed_in [] get_shipments)
    {| config := get_shipments; response := Some server_error |}
  = {| store := store (api signed_in [] get_shipments);
       at_ := Settled (Rejected {| config := get_shipments;
                                   response := Some server_error |});
       log := log (api signed_in [] get_shipments) |}.
Proof.
  apply (non_401_error_goes_to_caller_unchanged
           (api signed_in [] get_shipments)
           {| config := get_shipments; response := Some server_error |}).
  intros resp [= <-]. discriminate.
Defined.



(** What the handler does when the refresh has failed. *)
Lemma refresh_settled_failed m error :
  refresh_settled m error RefreshFailed
  = {| store := logout (store m); at_ := Settled (Rejected error);
       log := log m ++ [CalledLogout] |}.
Proof. reflexivity. Qed.

(** C4. A 401 on a request that does not carry the mark, with a refresh
    token in the store: the refresh endpoint is called with it, and when
    that call fails, whatever other components did to the store in the
    meantime, [logout] is called, the store is empty, and the caller gets
    the error of the request itself (its response is the 401, its request
    now carries the mark), not an error of the refresh call. *)
Theorem failed_refresh_logs_out_and_rejects_with_the_401
    (m : machine) (cfg : AxiosRequestConfig) (resp : AxiosResponse)
    (rt : string) (ops : list op) :
  at_ m = OnWire cfg -> _retry cfg = false -> status resp = 401%Z ->
  refreshToken (getState (store m)) = Some rt -> rt <> "" ->
  exists m',
    run m (Transport (Answered resp) :: (App <$> ops) ++ [Refresh RefreshFailed])
    = Some m'
    /\ store m' = logout (apply_ops ops (store m))
    /\ getState (store m') = initial
    /\ at_ m' = Settled (Rejected {| config := mark_retry cfg;
                                     response := Some resp |})
    /\ log m' = log m ++ [RefreshPosted rt; CalledLogout].
Proof.
  intros Hat Hretry Hst Hrt Hne.
  eexists. split.
  - simpl. unfold step. rewrite Hat. unfold transport_settled.
    rewrite (validateStatus_401 _ Hst).
    rewrite (response_rejected_refreshes m _ rt); simpl; try done.
    + rewrite run_App_ops. simpl. reflexivity.
    + apply status_is_401_spec. eauto.
  - simpl. rewrite <- app_assoc. done.
Qed.

Lemma failed_refresh_logs_out_and_rejects_with_the_401_witness :
  exists m',
    run (api signed_in [] get_shipments)
      (Transport (Answered unauthorized)
       :: (App <$> [UpdateUser (only_role "viewer")]) ++ [Refresh RefreshFailed])
    = Some m'
    /\ store m' = logout (apply_ops [UpdateUser (only_role "viewer")]
                            (store (api signed_in [] get_shipments)))
    /\ getState (store m') = initial
    /\ at_ m' = Settled (Rejected
         {| config := mark_retry (request_interceptor (getState signed_in)
                                    get_shipments);
            response := Some unauthorized |})
    /\ log m' = log (api signed_in [] get_shipments)
                ++ [RefreshPosted "R1"; CalledLogout].
Proof.
  apply (failed_refresh_logs_out_and_rejects_with_the_401
           (api signed_in [] get_shipments)
           (request_interceptor (getState signed_in) get_shipments)
           unauthorized "R1" [UpdateUser (only_role "viewer")]);
    (reflexivity || discriminate).
Defined.

(** C3. The store holds the tokens T1 and R1; a request is answered with
    401; the refresh endpoint answers with T2 and R2; the transport then
    settles the retried request in any way.  The request first went out
    with [Bearer T1], the refresh endpoint was called once, with R1, the
    store then holds T2 and R2 with the user it held, the request went out
    a second time with [Bearer T2], and the caller gets what that second
    request settled to, be it a response or an error. *)
Theorem refresh_then_retry_with_new_token
    (st : Store) (cfg : AxiosRequestConfig) (resp : AxiosResponse)
    (final : reply) :
  accessToken (getState st) = Some "T1" ->
  refreshToken (getState st) = Some "R1" ->
  _retry cfg = false -> status resp = 401%Z ->
  exists m sent1 sent2,
    run (api st [] cfg)
      [Transport (Answered resp); Refresh (Refreshed "T2" "R2");
       Transport final] = Some m
    /\ getState (store m)
       = {| user := user (getState st); accessToken := Some "T2";
            refreshToken := Some "R2"; isAuthenticated := true |}
    /\ log m = [Sent sent1; RefreshPosted "R1";
                CalledLogin (user (getState st)) "T2" "R2"; Sent sent2]
    /\ headers sent1 !! "Authorization" = Some "Bearer T1"
    /\ headers sent2 !! "Authorization" = Some "Bearer T2"
    /\ url sent2 = url cfg /\ method sent2 = method cfg /\ data sent2 = data cfg
    /\ at_ m = Settled (settle sent2 final).
Proof.
  intros Hat Hrt Hretry Hst.
  set (sent1 := with_header "Authorization" "Bearer T1" cfg).
  set (sent2 := with_header "Authorization" "Bearer T2"
                  (with_header "Authorization" "Bearer T2" (mark_retry sent1))).
  assert (Hapi : api st [] cfg
                 = {| store := st; at_ := OnWire sent1; log := [Sent sent1] |}).
  { unfold api. by rewrite (request_interceptor_truthy _ _ "T1"). }
  eexists _, sent1, sent2. split.
  - rewrite Hapi.
    erewrite run_cons; [|by apply step_Transport].
    rewrite (transport_settled_401 _ _ _ Hst).
    rewrite (response_rejected_refreshes _ _ "R1")
      by first [ apply status_is_401_spec; eauto | done ].
    erewrite run_cons; [|by apply step_Refresh].
    unfold refresh_settled. cbn [store log config]. unfold api.
    rewrite (request_interceptor_truthy _ _ "T2") by done.
    fold sent2.
    erewrite run_cons; [|by apply step_Transport].
    rewrite transport_settled_marked by done. reflexivity.
  - simpl. repeat split; try done; apply lookup_insert_eq.
Qed.

Lemma refresh_then_retry_with_new_token_witness :
  exists m sent1 sent2,
    run (api signed_in [] get_shipments)
      [Transport (Answered unauthorized); Refresh (Refreshed "T2" "R2");
       Transport (Answered ok)] = Some m
    /\ getState (store m)
       = {| user := Some demo_user; accessToken := Some "T2";
            refreshToken := Some "R2"; isAuthenticated := true |}
    /\ log m = [Sent sent1; RefreshPosted "R1";
                CalledLogin (Some demo_user) "T2" "R2"; Sent sent2]
    /\ headers sent1 !! "Authorization" = Some "Bearer T1"
    /\ headers sent2 !! "Authorization" = Some "Bearer T2"
    /\ url sent2 = "/shipments" /\ method sent2 = "get" /\ data sent2 = ""
    /\ at_ m = Settled (settle sent2 (Answered ok)).
Proof.
  apply (refresh_then_retry_with_new_token signed_in get_shipments
           unauthorized (Answered ok)); reflexivity.
Defined.

(* ===================================================================== *)
(** ** One refresh and one retry at most *)
(* ===================================================================== *)

Section Budget.

Implicit Types (m : machine) (evs : list event) (l : list effect).

Lemma response_rejected_budget m cfg resp :
  at_ m = OnWire cfg ->
  within_budget m (response_rejected m {| config := cfg; response := resp |}).
Proof.
  intros Hat. unfold within_budget, response_rejected. rewrite Hat. simpl.
  destruct (status_is_401 _); destruct (_retry cfg) eqn:Hretry; simpl;
    try (repeat split; first [ done | lia ]).
  destruct (refreshToken (getState (store m))) as [[|c rt]|]; simpl;
    rewrite ?sends_snoc, ?refreshes_snoc; simpl;
    repeat split; first [ done | lia ].
Qed.

Lemma step_budget m ev m' :
  step m ev = Some m' -> marked (at_ m) -> within_budget m m'.
Proof.
  unfold step. intros Hstep Hmarked.
  destruct ev as [o | r | r]; destruct (at_ m) as [cfg | e | out] eqn:Hat;
    inversion Hstep; subst; clear Hstep.
  1-3: unfold within_budget; simpl; rewrite Hat; repeat split; done || lia.
  - unfold transport_settled. destruct r as [resp|].
    + destruct (validateStatus (status resp)).
      * unfold within_budget; simpl. rewrite Hat. repeat split; simpl; lia.
      * by apply response_rejected_budget.
    + by apply response_rejected_budget.
  - unfold within_budget. rewrite Hat. simpl in Hmarked.
    destruct r as [a rt|]; unfold refresh_settled.
    + unfold api. simpl. rewrite request_interceptor_retry. simpl.
      rewrite Hmarked, !sends_snoc, !refreshes_snoc. simpl.
      repeat split; lia.
    + simpl. rewrite sends_snoc, refreshes_snoc. simpl. repeat split; lia.
Qed.

Lemma run_budget evs : forall m m',
  run m evs = Some m' -> marked (at_ m) -> within_budget m m'.
Proof.
  induction evs as [|ev evs IH]; intros m m' Hrun Hmarked; simpl in Hrun.
  - inversion Hrun; subst. unfold within_budget. repeat split; done || lia.
  - destruct (step m ev) as [m1|] eqn:Hstep; [|done].
    destruct (step_budget _ _ _ Hstep Hmarked) as (Hm1 & Hs1 & Hr1).
    destruct (IH _ _ Hrun Hm1) as (Hm' & Hs' & Hr').
    unfold within_budget. repeat split; [done | lia | lia].
Qed.

End Budget.

Section TwoUnauthorized.

Implicit Types (m : machine) (evs : list event) (cfg : AxiosRequestConfig).

(** A request that carries the mark takes one reply of the transport and
    settles with it. *)
Lemma run_marked evs : forall m cfg m' r,
  at_ m = OnWire cfg -> _retry cfg = true ->
  run m evs = Some m' -> transport_replies evs = [r] ->
  at_ m' = Settled (settle cfg r) /\ log m' = log m.
Proof.
  induction evs as [|ev evs IH]; intros m cfg m' r Hat Hretry Hrun Hreplies;
    [done|].
  destruct ev as [o | r' | r'].
  - simpl in Hrun. eapply (IH _ cfg) in Hrun; eauto.
  - injection Hreplies as -> Hrest.
    erewrite run_cons in Hrun; [|by apply step_Transport].
    rewrite transport_settled_marked in Hrun by done.
    eapply run_settled in Hrun as (? & ? & ?); [|reflexivity]. done.
  - simpl in Hrun. unfold step in Hrun. by rewrite Hat in Hrun.
Qed.

(** While the refresh is pending, a reply of the transport can only come
    after the refresh has succeeded and the request has gone out again. *)
Lemma run_refreshing evs : forall m error m' r,
  at_ m = Refreshing error -> _retry (config error) = true ->
  run m evs = Some m' -> transport_replies evs = [r] ->
  exists u a rt sent,
    log m' = log m ++ [CalledLogin u a rt; Sent sent]
    /\ _retry sent = true
    /\ at_ m' = Settled (settle sent r).
Proof.
  induction evs as [|ev evs IH]; intros m error m' r Hat Hretry Hrun Hreplies;
    [done|].
  destruct ev as [o | r' | r'].
  - simpl in Hrun. eapply (IH _ error) in Hrun; eauto.
  - simpl in Hrun. unfold step in Hrun. by rewrite Hat in Hrun.
  - erewrite run_cons in Hrun; [|by apply step_Refresh].
    change (transport_replies evs = [r]) in Hreplies.
    destruct r' as [a rt|].
    + unfold refresh_settled, api in Hrun.
      eapply run_marked in Hrun as (Hat' & Hlog'); [ | reflexivity | | done].
      * eexists _, a, rt, _. split; [|split; [|exact Hat']].
        -- rewrite Hlog'. simpl. by rewrite <- app_assoc.
        -- by rewrite request_interceptor_retry.
      * by rewrite request_interceptor_retry.
    + rewrite refresh_settled_failed in Hrun.
      eapply run_settled in Hrun as (_ & _ & Hnone); [|reflexivity].
      apply no_transport_replies in Hnone. congruence.
Qed.

(** Two replies of the transport, both 401: the first led to a refresh
    that succeeded, the second settled the request. *)
Lemma run_two_unauthorized evs : forall m cfg m' r1 r2,
  at_ m = OnWire cfg ->
  run m evs = Some m' ->
  transport_replies evs = [Answered r1; Answered r2] ->
  status r1 = 401%Z -> status r2 = 401%Z ->
  exists rt u a rt' sent,
    log m' = log m ++ [RefreshPosted rt; CalledLogin u a rt'; Sent sent]
    /\ at_ m' = Settled (Rejected {| config := sent; response := Some r2 |}).
Proof.
  induction evs as [|ev evs IH]; intros m cfg m' r1 r2 Hat Hrun Hreplies H1 H2;
    [done|].
  destruct ev as [o | r | r].
  - simpl in Hrun. eapply (IH _ cfg) in Hrun; eauto.
  - injection Hreplies as -> Hrest.
    erewrite run_cons in Hrun; [|by apply step_Transport].
    rewrite (transport_settled_401 _ _ _ H1) in Hrun.
    unfold response_rejected in Hrun.
    destruct (status_is_401 _ && negb (_retry _)) eqn:Hguard.
    + destruct (refreshToken (getState (store m))) as [rt|] eqn:Hrt;
        [destruct (truthy (Some rt))|].
      * eapply run_refreshing in Hrun as (u & a & rt' & sent & Hlog & _ & Hat');
          [ | reflexivity | reflexivity | exact Hrest ].
        exists rt, u, a, rt', sent. split.
        -- rewrite Hlog. simpl. by rewrite <- app_assoc.
        -- rewrite Hat'. unfold settle. by rewrite (validateStatus_401 _ H2).
      * eapply run_settled in Hrun as (_ & _ & Hnone); [|reflexivity].
        apply no_transport_replies in Hnone. congruence.
      * eapply run_settled in Hrun as (_ & _ & Hnone); [|reflexivity].
        apply no_transport_replies in Hnone. congruence.
    + eapply run_settled in Hrun as (_ & _ & Hnone); [|reflexivity].
      apply no_transport_replies in Hnone. congruence.
  - simpl in Hrun. unfold step in Hrun. by rewrite Hat in Hrun.
Qed.

End TwoUnauthorized.

(** C2. In every execution of one request, whatever the transport, the
    refresh endpoint and the other components do, the request goes on the
    wire at most twice and the refresh endpoint is called at most once.
    When the transport answers 401 twice, the request went out, the
    refresh endpoint was called once, [login] was called, the request went
    out once more, and that is all; the caller gets the error with the
    second 401, and no event of the network is taken any more. *)
Theorem at_most_one_refresh_and_one_retry
    (st : Store) (cfg : AxiosRequestConfig) (evs : list event) (m : machine) :
  run (api st [] cfg) evs = Some m ->
  sends (log m) <= 2
  /\ refreshes (log m) <= 1
  /\ (forall r1 r2,
        transport_replies evs = [Answered r1; Answered r2] ->
        status r1 = 401%Z -> status r2 = 401%Z ->
        exists sent1 rt u a rt' sent2,
          log m = [Sent sent1; RefreshPosted rt; CalledLogin u a rt'; Sent sent2]
          /\ sends (log m) = 2 /\ refreshes (log m) = 1
          /\ at_ m = Settled (Rejected {| config := sent2;
                                          response := Some r2 |})
          /\ (forall ev, from_network ev = true -> step m ev = None)).
Proof.
  intros Hrun.
  destruct (run_budget evs _ _ Hrun I) as (_ & Hsends & Hrefreshes).
  unfold api in Hsends, Hrefreshes. simpl in Hsends, Hrefreshes.
  rewrite request_interceptor_retry in Hsends, Hrefreshes.
  split; [destruct (_retry cfg); simpl in *; unfold sends in *; simpl in *; lia|].
  split; [destruct (_retry cfg); simpl in *; unfold refreshes in *; simpl in *; lia|].
  intros r1 r2 Hreplies H1 H2.
  eapply run_two_unauthorized in Hrun
    as (rt & u & a & rt' & sent2 & Hlog & Hat); [ | reflexivity | eauto.. ].
  exists (request_interceptor (getState st) cfg), rt, u, a, rt', sent2.
  unfold api in Hlog. simpl in Hlog. rewrite Hlog.
  repeat split; try done.
  intros ev Hev. eapply settled_refuses_network; eauto.
Qed.

Lemma at_most_one_refresh_and_one_retry_witness :
  exists m,
    run (api signed_in [] get_shipments)
      [Transport (Answered unauthorized); App (UpdateUser (only_role "viewer"));
       Refresh (Refreshed "T2" "R2"); Transport (Answered unauthorized)]
    = Some m
    /\ sends (log m) <= 2
    /\ refreshes (log m) <= 1
    /\ at_ m = Settled (Rejected
         {| config :=
              with_header "Authorization" "Bearer T2"
                (with_header "Authorization" "Bearer T2"
                   (mark_retry (with_header "Authorization" "Bearer T1"
                                  get_shipments)));
            response := Some unauthorized |}).
Proof.
  eexists. split; [reflexivity|].
  destruct (at_most_one_refresh_and_one_retry signed_in get_shipments
              [Transport (Answered unauthorized);
               App (UpdateUser (only_role "viewer"));
               Refresh (Refreshed "T2" "R2"); Transport (Answered unauthorized)]
              _ eq_refl) as (Hs & Hr & _).
  split; [exact Hs|]. split; [exact Hr|]. reflexivity.
Defined.

(* ===================================================================== *)
(** ** The session invariant *)
(* ===================================================================== *)

Section SessionInvariant.

Implicit Types (st : Store) (m : machine) (evs : list event).






(** [logout] resets the four fields in one transition, whatever they
    were. *)
Lemma logout_clears_all_four st :
  getState (logout st)
  = {| user := None; accessToken := None; refreshToken := None;
       isAuthenticated := false |}.
Proof. reflexivity. Qed.

End SessionInvariant.

Section WithoutLogoutInBetween.

Implicit Types (st : Store) (m : machine) (evs : list event).






End WithoutLogoutInBetween.

(** C1, at the input on which the code departs from it.  The demo user is
    signed in with T1 and R1; a request is answered with 401 and the
    refresh goes out; while it is pending [logout] is called; the refresh
    then succeeds with T2 and R2.  The handler calls [login] with the user
    the store holds at that moment, which is [null]: the store ends with
    [isAuthenticated] set and both tokens, and no user.  The store is
    reachable from the empty one. *)
Theorem logout_while_refreshing_sets_flag_without_user :
  exists m,
    run (api signed_in [] get_shipments)
      [Transport (Answered unauthorized); App Logout;
       Refresh (Refreshed "T2" "R2")] = Some m
    /\ reachable ∅ (store m)
    /\ getState (store m)
       = {| user := None; accessToken := Some "T2"; refreshToken := Some "R2";
            isAuthenticated := true |}
    /\ CalledLogin None "T2" "R2" ∈ log m
    /\ ~ flag_with_user_and_tokens (store m).
Proof.
  eexists. split; [reflexivity|]. split; [|split; [reflexivity|split]].
  - eapply (reach_request ∅ signed_in get_shipments
              [Transport (Answered unauthorized); App Logout;
               Refresh (Refreshed "T2" "R2")]).
    + apply (reach_op ∅ (create ∅) (Login demo_user "T1" "R1")), reach_create.
    + reflexivity.
  - vm_compute. repeat first [ by left | right ].
  - unfold flag_with_user_and_tokens. simpl. intros [H _].
    destruct (H eq_refl) as [[u [=]] _].
Qed.

(** The same end without any call from outside the client: two requests
    are answered with 401 and each posts its refresh; the refresh of the
    first fails, so its handler calls [logout]; the refresh of the second
    succeeds, and its handler calls [login] with the user the store holds
    then. *)
Lemma two_requests_refreshing_sets_flag_without_user :
  exists s,
    run2 (both signed_in get_shipments get_inventory_summary)
      [First (Transport (Answered unauthorized));
       Second (Transport (Answered unauthorized));
       First (Refresh RefreshFailed);
       Second (Refresh (Refreshed "T2" "R2"))] = Some s
    /\ getState (shared s)
       = {| user := None; accessToken := Some "T2"; refreshToken := Some "R2";
            isAuthenticated := true |}
    /\ snd (first s)
       = [Sent (with_header "Authorization" "Bearer T1" get_shipments);
          RefreshPosted "R1"; CalledLogout]
    /\ exists sent1 sent2,
         snd (second s)
         = [Sent sent1; RefreshPosted "R1"; CalledLogin None "T2" "R2";
            Sent sent2].
Proof.
  eexists. split; [reflexivity|]. split; [reflexivity|].
  split; [reflexivity|]. eexists _, _. reflexivity.
Qed.

(* ===================================================================== *)
(** ** More on the session store *)
(* ===================================================================== *)

Section StoreComposition.

Implicit Types (st : Store) (s : AuthState) (p q : PartialUser) (u : User).

(** X1. The record [partialize] builds determines the four fields it was
    built from: two states have the same record exactly when they are the
    same state ([null] and the empty string, a missing user and a user
    with empty fields are told apart). *)
Theorem partialize_determines_state s1 s2 :
  partialize s1 = partialize s2 <-> s1 = s2.
Proof.
  split; [|by intros ->].
  destruct s1 as [u1 a1 r1 f1], s2 as [u2 a2 r2 f2]. unfold partialize. simpl.
  intros H. injection H as Hu Ha Hr Hf. subst f2.
  assert (u1 = u2) as ->.
  { destruct u1 as [[]|], u2 as [[]|]; simpl in Hu; try discriminate; [|done].
    injection Hu as -> -> -> -> ->. done. }
  assert (a1 = a2) as ->.
  { destruct a1, a2; simpl in Ha; try discriminate; [|done]. by injection Ha as ->. }
  assert (r1 = r2) as ->.
  { destruct r1, r2; simpl in Hr; try discriminate; [|done]. by injection Hr as ->. }
  done.
Qed.

Lemma spread_spread u p q : spread (spread u p) q = spread u (override p q).
Proof.
  destruct u, p as [a b c d e], q as [a' b' c' d' e']. unfold spread, override.
  simpl. by destruct a', b', c', d', e'.
Qed.

Lemma override_idem p : override p p = p.
Proof. destruct p as [a b c d e]. unfold override. simpl. by destruct a, b, c, d, e. Qed.

(** X2. Two calls of [updateUser] in a row are one call with the two
    partial users merged, the later one winning, for the state and for
    the persisted record alike; so a call repeated changes nothing. *)
Theorem updateUser_twice st p q :
  updateUser q (updateUser p st) = updateUser (override p q) st
  /\ updateUser p (updateUser p st) = updateUser p st.
Proof.
  assert (H : forall p q,
            updateUser q (updateUser p st) = updateUser (override p q) st).
  { intros p' q'. unfold updateUser, set, assign. simpl. f_equal.
    - f_equal. destruct (user (getState st)); [|done]. simpl.
      by rewrite spread_spread.
    - rewrite insert_insert_eq. do 3 f_equal.
      destruct (user (getState st)); [|done]. simpl. by rewrite spread_spread. }
  split; [apply H|]. by rewrite H, override_idem.
Qed.

Lemma in_step_apply_ops ops : forall st,
  in_step (localStorage st) (apply_ops ops st).
Proof.
  induction ops as [|o ops IH] using rev_ind; intros st; [by left|].
  unfold apply_ops. rewrite foldl_app. simpl.
  destruct o; apply in_step_set; apply IH.
Qed.

(** X3. [login] and [logout] override whatever came before: after any
    calls of store operations the store they leave, the persisted record
    included, is the one they leave when called at once. *)
Theorem login_and_logout_override_history st (ops : list op) (u : option User)
    (a r : string) :
  logout (apply_ops ops st) = logout st
  /\ login u a r (apply_ops ops st) = login u a r st.
Proof.
  assert (H : forall f : AuthState -> Patch,
            (forall s s', assign s (f s) = assign s' (f s')) ->
            set f (apply_ops ops st) = set f st).
  { intros f Hf. unfold set. rewrite (Hf _ (getState st)). f_equal.
    destruct (in_step_apply_ops ops st) as [-> | ->]; [done|].
    apply insert_insert_eq. }
  split; apply H; reflexivity.
Qed.

End StoreComposition.

(* ===================================================================== *)
(** ** More on the client: what one request can do *)
(* ===================================================================== *)

Section Traces.

Implicit Types (m : machine) (evs : list event) (cfg : AxiosRequestConfig).

Lemma with_header_twice k v cfg :
  with_header k v (with_header k v cfg) = with_header k v cfg.
Proof. unfold with_header. simpl. by rewrite insert_insert_eq. Qed.

(** After a refresh the request interceptor finds the header it would
    set already there. *)
Lemma request_interceptor_after_refresh st u a r cfg :
  request_interceptor (getState (login u a r st))
    (with_header "Authorization" ("Bearer " +:+ a) cfg)
  = with_header "Authorization" ("Bearer " +:+ a) cfg.
Proof.
  unfold request_interceptor. simpl.
  destruct a; [done|]. apply with_header_twice.
Qed.

Lemma settle_rejected cfg resp :
  validateStatus (status resp) = false ->
  settle cfg (Answered resp)
  = Rejected {| config := cfg; response := Some resp |}.
Proof. intros H. unfold settle. by rewrite H. Qed.

Lemma trace_shape_step first_sent m ev m' :
  step m ev = Some m' -> trace_shape first_sent m -> trace_shape first_sent m'.
Proof.
  intros Hstep Hshape. destruct ev as [o | r | r].
  - (* a store call changes neither the log nor where the request stands *)
    unfold step in Hstep. injection Hstep as <-. exact Hshape.
  - unfold step in Hstep.
    destruct (at_ m) as [cfg | e | out] eqn:Hat; try discriminate.
    injection Hstep as <-.
    destruct Hshape as [(Hlog & [Hw | (x & Hs)]) | [(_ & resp & _ & Hs)
      | [(rt & resp & _ & _ & _ & Hs) | [(rt & resp & _ & _ & _ & Hs)
      | (rt & u & a & r' & second & Hlog & Hrt & Hsecond & [Hw | (x & Hs)])]]]];
      try congruence.
    + (* the first reply *)
      assert (cfg = first_sent) as -> by congruence.
      unfold transport_settled. destruct r as [resp|].
      * destruct (validateStatus (status resp)) eqn:Hvalid.
        { left. simpl. split; [exact Hlog|]. right. exists (Answered resp).
          unfold settle. by rewrite Hvalid. }
        set (e := {| config := first_sent; response := Some resp |}).
        assert (Hpass : response_rejected m e
                        = {| store := store m; at_ := Settled (Rejected e);
                             log := log m |} ->
                        trace_shape first_sent (response_rejected m e)).
        { intros ->. left. simpl. split; [exact Hlog|]. right.
          exists (Answered resp). by rewrite settle_rejected. }
        destruct (status_is_401 e) eqn:H401;
          [|apply Hpass, response_rejected_passes; by rewrite H401].
        destruct (_retry first_sent) eqn:Hretry;
          [apply Hpass, response_rejected_passes; simpl; rewrite Hretry;
           apply andb_false_r|].
        pose proof H401 as H401'.
        apply status_is_401_spec in H401' as (resp' & [= <-] & Hst).
        destruct (refreshToken (getState (store m))) as [rt|] eqn:Hrt;
          [destruct (decide (rt = "")) as [-> | Hne]|].
        -- rewrite response_rejected_logs_out by (done || by rewrite Hrt).
           right; left. simpl. rewrite Hlog. split; [done|]. by exists resp.
        -- rewrite (response_rejected_refreshes _ _ rt) by done.
           right; right; left. exists rt, resp. simpl. rewrite Hlog. done.
        -- rewrite response_rejected_logs_out by (done || by rewrite Hrt).
           right; left. simpl. rewrite Hlog. split; [done|]. by exists resp.
      * rewrite response_rejected_passes by done.
        left. simpl. split; [exact Hlog|]. right. by exists NoAnswer.
    + (* the reply to the retried request *)
      assert (cfg = second) as -> by congruence.
      rewrite transport_settled_marked by (by subst second).
      right; right; right; right. exists rt, u, a, r', second. simpl.
      repeat split; try done. right. by exists r.
  - unfold step in Hstep.
    destruct (at_ m) as [cfg | e | out] eqn:Hat; try discriminate.
    injection Hstep as <-.
    destruct Hshape as [(Hlog & [Hw | (x & Hs)]) | [(_ & resp & _ & Hs)
      | [(rt & resp & Hlog & Hrt & H401 & Hs) | [(rt & resp & _ & _ & _ & Hs)
      | (rt & u & a & r' & second & Hlog & Hrt & Hsecond & [Hw | (x & Hs)])]]]];
      try congruence.
    assert (e = {| config := mark_retry first_sent; response := Some resp |})
      as -> by congruence.
    destruct r as [a r'|]; unfold refresh_settled.
    + right; right; right; right.
      exists rt, (user (getState (store m))), a, r',
        (with_header "Authorization" ("Bearer " +:+ a) (mark_retry first_sent)).
      unfold api. rewrite request_interceptor_after_refresh. simpl.
      rewrite Hlog. repeat split; try done. by left.
    + right; right; right; left. exists rt, resp. simpl. rewrite Hlog. done.
Qed.

Lemma trace_shape_run first_sent evs : forall m m',
  run m evs = Some m' -> trace_shape first_sent m -> trace_shape first_sent m'.
Proof.
  induction evs as [|ev evs IH]; intros m m' Hrun Hshape; simpl in Hrun.
  - by injection Hrun as <-.
  - destruct (step m ev) as [m1|] eqn:Hstep; [|done].
    eauto using trace_shape_step.
Qed.

End Traces.

(** X4. Whatever the network and the other components do, what the client
    has done for one request is one of five things: it sent the request;
    it sent it and, for want of a refresh token, called [logout]; it sent
    it and posted a refresh; it posted a refresh in vain and called
    [logout]; or it posted a refresh, called [login] and sent the request
    once more with the new token and the mark.  So [logout] and [login]
    are never both called, [login] only after a refresh, and the caller
    gets either what the transport made of the request last sent or the
    first 401. *)
Theorem client_does_one_of_five_things
    (st : Store) (cfg : AxiosRequestConfig) (evs : list event) (m : machine) :
  run (api st [] cfg) evs = Some m ->
  trace_shape (request_interceptor (getState st) cfg) m.
Proof.
  intros Hrun. eapply trace_shape_run; [exact Hrun|].
  left. unfold api. simpl. split; [done | by left].
Qed.

Lemma client_does_one_of_five_things_witness :
  exists m,
    run (api signed_in [] get_shipments)
      [Transport (Answered unauthorized); App Logout; Refresh RefreshFailed]
    = Some m
    /\ trace_shape (request_interceptor (getState signed_in) get_shipments) m.
Proof.
  eexists. split; [reflexivity|].
  apply (client_does_one_of_five_things signed_in get_shipments
           [Transport (Answered unauthorized); App Logout;
            Refresh RefreshFailed]).
  reflexivity.
Defined.

Section NetworkEvents.

Implicit Types (m : machine) (evs : list event).

Lemma net_left_response_rejected m cfg resp :
  net_left (at_ (response_rejected m {| config := cfg; response := resp |})) + 1
  <= net_left (OnWire cfg)
  /\ marked (at_ (response_rejected m {| config := cfg; response := resp |})).
Proof.
  unfold response_rejected. simpl.
  destruct (status_is_401 _); destruct (_retry cfg) eqn:Hretry; simpl;
    try (split; [lia | done]).
  destruct (refreshToken (getState (store m))) as [[|c rt]|]; simpl;
    (split; [lia | done]).
Qed.

Lemma net_left_step m ev m' :
  step m ev = Some m' -> marked (at_ m) ->
  marked (at_ m')
  /\ (if from_network ev then 1 else 0) + net_left (at_ m') <= net_left (at_ m).
Proof.
  unfold step. intros Hstep Hmarked.
  destruct ev as [o | r | r]; destruct (at_ m) as [cfg | e | out] eqn:Hat;
    inversion Hstep; subst; clear Hstep; simpl; try rewrite Hat; try done.
  - unfold transport_settled. destruct r as [resp|].
    + destruct (validateStatus (status resp)); simpl.
      * split; [done|]. destruct (_retry cfg); lia.
      * destruct (net_left_response_rejected m cfg (Some resp)) as [H1 H2].
        split; [done|]. simpl in *. lia.
    + destruct (net_left_response_rejected m cfg None) as [H1 H2].
      split; [done|]. simpl in *. lia.
  - simpl in Hmarked. destruct r as [a rt|]; unfold refresh_settled; simpl.
    + unfold api. simpl. rewrite request_interceptor_retry. simpl.
      rewrite Hmarked. split; [done | lia].
    + split; [done | lia].
Qed.

Lemma net_left_run evs : forall m m',
  run m evs = Some m' -> marked (at_ m) ->
  network_events evs + net_left (at_ m') <= net_left (at_ m).
Proof.
  induction evs as [|ev evs IH]; intros m m' Hrun Hmarked; simpl in Hrun.
  - injection Hrun as <-. unfold network_events. simpl. lia.
  - destruct (step m ev) as [m1|] eqn:Hstep; [|done].
    destruct (net_left_step _ _ _ Hstep Hmarked) as [Hm1 Hle].
    specialize (IH _ _ Hrun Hm1).
    unfold network_events in *. simpl.
    destruct (from_network ev); simpl; lia.
Qed.

(** Without a 401 the request never waits for a refresh, and the client
    leaves the store and the log alone. *)
Lemma run_without_401 evs : forall m m',
  not_refreshing (at_ m) ->
  Forall not_401 (transport_replies evs) ->
  run m evs = Some m' ->
  not_refreshing (at_ m') /\ log m' = log m
  /\ store m' = apply_ops (app_ops evs) (store m).
Proof.
  induction evs as [|ev evs IH]; intros m m' Hat Hnot Hrun; simpl in Hrun.
  - by injection Hrun as <-.
  - destruct (step m ev) as [m1|] eqn:Hstep; [|done].
    unfold step in Hstep. destruct ev as [o | r | r].
    + injection Hstep as <-.
      eapply IH in Hrun as (? & ? & ?); [done | exact Hat | exact Hnot].
    + destruct (at_ m) as [cfg | e | out] eqn:Hat'; try done.
      injection Hstep as <-.
      change (Forall not_401 (r :: transport_replies evs)) in Hnot.
      apply Forall_cons in Hnot as [Hr Hnot].
      assert (Hsame : transport_settled m cfg r
                      = {| store := store m; at_ := Settled (settle cfg r);
                           log := log m |}).
      { unfold transport_settled, settle. destruct r as [resp|].
        - destruct (validateStatus (status resp)); [done|].
          apply response_rejected_passes. unfold status_is_401. simpl.
          simpl in Hr. apply Z.eqb_neq in Hr. by rewrite Hr.
        - by apply response_rejected_passes. }
      rewrite Hsame in Hrun.
      eapply IH in Hrun as (? & ? & ?); [done | exact I | exact Hnot].
    + destruct (at_ m) as [cfg | e | out] eqn:Hat'; done.
Qed.

End NetworkEvents.

(** X5. One request takes at most three events from the network, however
    the execution goes: the reply to the request, the reply to the
    refresh, the reply to the retried request.  After that it takes
    none. *)
Theorem at_most_three_network_events
    (st : Store) (cfg : AxiosRequestConfig) (evs : list event) (m : machine) :
  run (api st [] cfg) evs = Some m ->
  network_events evs <= 3.
Proof.
  intros Hrun. apply net_left_run in Hrun; [|exact I].
  unfold api in Hrun. simpl in Hrun.
  destruct (_retry (request_interceptor (getState st) cfg)); lia.
Qed.

Lemma at_most_three_network_events_witness :
  network_events
    [Transport (Answered unauthorized); Refresh (Refreshed "T2" "R2");
     App Logout; Transport (Answered unauthorized)] <= 3.
Proof.
  eapply (at_most_three_network_events signed_in get_shipments).
  reflexivity.
Defined.

(** X6. As long as no reply of the transport is a 401, the client posts
    no refresh and calls neither [login] nor [logout], be the replies
    successes, other error statuses or transport failures: its log is the
    one send, and the store is what the other components made of it. *)
Theorem without_401_client_leaves_session_alone
    (st : Store) (cfg : AxiosRequestConfig) (evs : list event) (m : machine) :
  Forall not_401 (transport_replies evs) ->
  run (api st [] cfg) evs = Some m ->
  log m = [Sent (request_interceptor (getState st) cfg)]
  /\ store m = apply_ops (app_ops evs) st.
Proof.
  intros Hnot Hrun.
  eapply run_without_401 in Hrun as (_ & Hlog & Hstore);
    [done | exact I | exact Hnot].
Qed.

Lemma without_401_client_leaves_session_alone_witness :
  exists m,
    run (api signed_in [] get_shipments)
      [App (UpdateUser (only_role "viewer")); Transport (Answered server_error)]
    = Some m
    /\ log m = [Sent (request_interceptor (getState signed_in) get_shipments)]
    /\ store m = apply_ops [UpdateUser (only_role "viewer")] signed_in.
Proof.
  eexists. split; [reflexivity|].
  apply (without_401_client_leaves_session_alone signed_in get_shipments
           [App (UpdateUser (only_role "viewer"));
            Transport (Answered server_error)]).
  - repeat constructor. discriminate.
  - reflexivity.
Defined.

(** X7. A request without the mark is answered with 401 while the store
    holds a refresh token; the refresh succeeds; other components may
    call store operations before the reply, while the refresh is pending
    and while the retried request is.  Then the refresh was posted once,
    with the refresh token the store held when the 401 came; [login] was
    called with the user the store held when the refresh settled; the
    request went out once more, with [Bearer] and the new access token,
    empty or not; and the caller gets what the transport makes of that
    request, without [logout] being called when it fails. *)
Theorem one_401_one_refresh_one_retry
    (st : Store) (cfg : AxiosRequestConfig) (resp : AxiosResponse)
    (ops1 ops2 ops3 : list op) (rt a r : string) (final : reply) :
  _retry cfg = false -> status resp = 401%Z ->
  refreshToken (getState (apply_ops ops1 st)) = Some rt -> rt <> "" ->
  let st2 := apply_ops ops2 (apply_ops ops1 st) in
  let sent1 := request_interceptor (getState st) cfg in
  let sent2 := with_header "Authorization" ("Bearer " +:+ a) (mark_retry sent1) in
  exists m,
    run (api st [] cfg)
      ((App <$> ops1) ++ Transport (Answered resp)
       :: (App <$> ops2) ++ Refresh (Refreshed a r)
       :: (App <$> ops3) ++ [Transport final]) = Some m
    /\ log m = [Sent sent1; RefreshPosted rt;
                CalledLogin (user (getState st2)) a r; Sent sent2]
    /\ headers sent2 !! "Authorization" = Some ("Bearer " +:+ a)
    /\ store m = apply_ops ops3 (login (user (getState st2)) a r st2)
    /\ at_ m = Settled (settle sent2 final).
Proof.
  intros Hretry Hst Hrt Hne st2 sent1 sent2.
  eexists. split.
  - unfold api. rewrite run_App_ops. cbn [store at_ log].
    erewrite run_cons; [|by apply step_Transport].
    rewrite (transport_settled_401 _ _ _ Hst).
    rewrite (response_rejected_refreshes _ _ rt);
      [ | by apply status_is_401_spec; eauto
        | by simpl; rewrite request_interceptor_retry | done | done ].
    rewrite run_App_ops. cbn [store at_ log].
    erewrite run_cons; [|by apply step_Refresh].
    unfold refresh_settled, api. cbn [store at_ log config].
    fold st2 sent1. rewrite request_interceptor_after_refresh. fold sent2.
    rewrite run_App_ops. cbn [store at_ log].
    erewrite run_cons; [|by apply step_Transport].
    rewrite transport_settled_marked by done. reflexivity.
  - simpl. repeat split. apply lookup_insert_eq.
Qed.

Lemma one_401_one_refresh_one_retry_witness :
  exists m,
    run (api signed_in [] get_shipments)
      ((App <$> [Login demo_user "T9" "R9"]) ++ Transport (Answered unauthorized)
       :: (App <$> [Logout]) ++ Refresh (Refreshed "" "R2")
       :: (App <$> []) ++ [Transport (Answered unauthorized)]) = Some m
    /\ log m
       = [Sent (request_interceptor (getState signed_in) get_shipments);
          RefreshPosted "R9"; CalledLogin None "" "R2";
          Sent (with_header "Authorization" "Bearer "
                  (mark_retry (request_interceptor (getState signed_in)
                                 get_shipments)))]
    /\ at_ m
       = Settled (settle
           (with_header "Authorization" "Bearer "
              (mark_retry (request_interceptor (getState signed_in)
                             get_shipments)))
           (Answered unauthorized)).
Proof.
  destruct (one_401_one_refresh_one_retry signed_in get_shipments unauthorized
              [Login demo_user "T9" "R9"] [Logout] [] "R9" "" "R2"
              (Answered unauthorized) eq_refl eq_refl eq_refl)
    as (m & Hrun & Hlog & _ & _ & Hat); [discriminate|].
  exists m. split; [exact Hrun|]. split; [exact Hlog | exact Hat].
Defined.

(* ===================================================================== *)
(** ** The login page and the route guard *)
(* ===================================================================== *)

Section LoginPageFacts.

Variable FormData : list (string * string) -> string.
Variable tokens_of : string -> string * string.
Variable userInfo_of : string -> LoginPage.UserInfo.
Variable detail_of : string -> option string.

Local Abbreviation onSubmit := (LoginPage.onSubmit FormData).
Local Abbreviation resume := (LoginPage.resume tokens_of userInfo_of detail_of).
Local Abbreviation step_page := (LoginPage.step_page tokens_of userInfo_of detail_of).
Local Abbreviation run_page := (LoginPage.run_page tokens_of userInfo_of detail_of).
Local Abbreviation error_message := (LoginPage.error_message detail_of).

Implicit Types (p : LoginPage.page) (m : machine) (evs : list event).

Lemma run_page_cons p ev p1 evs :
  step_page p ev = Some p1 -> run_page p (ev :: evs) = run_page p1 evs.
Proof. intros H. simpl. by rewrite H. Qed.

(** Store calls while a request of the page is on the wire. *)
Lemma run_page_App_ops ops : forall m0 cfg stg l u evs,
  at_ m0 = OnWire cfg ->
  run_page {| LoginPage.request := m0; LoginPage.at_stage := stg;
              LoginPage.isLoading := l; LoginPage.ui := u |}
    ((App <$> ops) ++ evs)
  = run_page {| LoginPage.request :=
                  {| store := apply_ops ops (store m0); at_ := OnWire cfg;
                     log := log m0 |};
                LoginPage.at_stage := stg; LoginPage.isLoading := l;
                LoginPage.ui := u |} evs.
Proof.
  induction ops as [|o ops IH]; intros [st ph lg] cfg stg l u evs Hat;
    simpl in Hat; subst ph; [done|].
  simpl. unfold LoginPage.step_page, LoginPage.resume. simpl.
  destruct stg; simpl; by rewrite (IH _ cfg).
Qed.

(** X8. When the login request resolves, [onSubmit] goes on to [getMe]
    with the store as it is: the response has not been put into it, so
    the request for [/auth/me] goes out with the access token the store
    held before, if it held one, and without an [Authorization] header
    if it held none, whatever tokens the response carries. *)
Theorem getMe_goes_out_with_the_token_held_before
    (st : Store) (email password : string) (ops : list op)
    (resp : AxiosResponse) :
  validateStatus (status resp) = true ->
  let st1 := apply_ops ops st in
  let me_sent := request_interceptor (getState st1) LoginPage.authAPI_getMe in
  exists p login_sent,
    run_page (onSubmit st email password)
      ((App <$> ops) ++ [Transport (Answered resp)]) = Some p
    /\ LoginPage.at_stage p = LoginPage.AwaitingMe (response_data resp)
    /\ store (LoginPage.request p) = st1
    /\ at_ (LoginPage.request p) = OnWire me_sent
    /\ log (LoginPage.request p) = [Sent login_sent; Sent me_sent]
    /\ url me_sent = "/auth/me"
    /\ (truthy (accessToken (getState st1)) = false ->
        headers me_sent !! "Authorization" = None)
    /\ (forall tok, accessToken (getState st1) = Some tok -> tok <> "" ->
        headers me_sent !! "Authorization" = Some ("Bearer " +:+ tok)).
Proof.
  intros Hvalid st1 me_sent.
  eexists _, (request_interceptor (getState st) (LoginPage.authAPI_login FormData email password)).
  split.
  - unfold LoginPage.onSubmit, api. erewrite run_page_App_ops by reflexivity.
    cbn [store log]. simpl. unfold LoginPage.step_page. simpl.
    unfold transport_settled. rewrite Hvalid.
    unfold LoginPage.resume. simpl. reflexivity.
  - simpl. fold st1. unfold api. simpl. fold me_sent.
    repeat split.
    + subst me_sent. unfold request_interceptor.
      destruct (accessToken (getState st1)) as [tok|]; [|done].
      by destruct (truthy (Some tok)).
    + intros Hfalsy. subst me_sent. by rewrite request_interceptor_falsy.
    + intros tok Htok Hne. subst me_sent.
      rewrite (request_interceptor_truthy _ _ tok) by done.
      apply lookup_insert_eq.
Qed.

(** X9. Signing in through the form from a signed-out store, against a
    server that answers 401 to [/auth/me] without credentials: the login
    request resolves, [/auth/me] goes out without an [Authorization]
    header and is answered 401, the client calls [logout], and [onSubmit]
    ends in its [catch]: one error toast, not loading, the store empty,
    and [login] of the store never called with the tokens just issued. *)
Theorem form_login_fails_when_me_needs_the_new_token
    (st : Store) (email password : string) (resp r401 : AxiosResponse) :
  truthy (accessToken (getState st)) = false ->
  truthy (refreshToken (getState st)) = false ->
  validateStatus (status resp) = true ->
  status r401 = 401%Z ->
  exists p login_sent me_sent,
    run_page (onSubmit st email password)
      [Transport (Answered resp); Transport (Answered r401)] = Some p
    /\ log (LoginPage.request p) = [Sent login_sent; Sent me_sent; CalledLogout]
    /\ url me_sent = "/auth/me"
    /\ headers me_sent !! "Authorization" = None
    /\ LoginPage.at_stage p = LoginPage.Finished
    /\ LoginPage.isLoading p = false
    /\ LoginPage.ui p
       = [LoginPage.ToastError
            (error_message {| config := mark_retry me_sent;
                              response := Some r401 |})]
    /\ getState (store (LoginPage.request p)) = initial
    /\ App.ProtectedRoute (getState (store (LoginPage.request p)))
       = App.NavigateTo "/login".
Proof.
  intros Hat Hrt Hvalid H401.
  set (login_sent := request_interceptor (getState st)
                       (LoginPage.authAPI_login FormData email password)).
  set (me_sent := request_interceptor (getState st) LoginPage.authAPI_getMe).
  assert (Hme : me_sent = LoginPage.authAPI_getMe)
    by (by apply request_interceptor_falsy).
  eexists _, login_sent, me_sent. split.
  - unfold LoginPage.onSubmit, api. fold login_sent.
    erewrite run_page_cons.
    2:{ unfold LoginPage.step_page. cbn [LoginPage.request].
        erewrite step_Transport by reflexivity.
        unfold transport_settled. rewrite Hvalid. reflexivity. }
    unfold LoginPage.resume, api.
    cbn [LoginPage.at_stage LoginPage.isLoading LoginPage.ui at_ store log].
    fold me_sent.
    erewrite run_page_cons.
    2:{ unfold LoginPage.step_page. cbn [LoginPage.request].
        erewrite step_Transport by reflexivity.
        rewrite (transport_settled_401 _ _ _ H401).
        rewrite response_rejected_logs_out;
          [ | by apply status_is_401_spec; eauto | by rewrite Hme | done ].
        reflexivity. }
    reflexivity.
  - simpl. repeat split. all: try by rewrite Hme.
Qed.


(** One turn keeps the page consistent and uses up what it takes from
    the network. *)
Lemma page_step_consistent p ev p' :
  step_page p ev = Some p' -> page_consistent p ->
  page_consistent p'
  /\ (if from_network ev then 1 else 0) + page_net_left p' <= page_net_left p.
Proof.
  unfold LoginPage.step_page. intros Hstep Hok.
  destruct (step (LoginPage.request p) ev) as [m|] eqn:Hm; [|done].
  injection Hstep as <-.
  unfold page_consistent, page_net_left in *.
  destruct (LoginPage.at_stage p) as [|d|] eqn:Hstage.
  - destruct Hok as (Hload & Hui & Hpending & Hmarked).
    destruct (net_left_step _ _ _ Hm Hmarked) as [Hmarked' Hle].
    unfold LoginPage.resume. rewrite Hstage.
    destruct (at_ m) as [cfg | e | [r | e]] eqn:Hat; simpl; rewrite ?Hat.
    + repeat split; try done. lia.
    + repeat split; try done. lia.
    + unfold api. simpl. repeat split; try done.
      destruct (_retry _); simpl in *; lia.
    + rewrite Hui. split; [|lia].
      split; [done|]. split; [by eexists | left; by eexists].
  - destruct Hok as (Hload & Hui & Hpending & Hmarked).
    destruct (net_left_step _ _ _ Hm Hmarked) as [Hmarked' Hle].
    unfold LoginPage.resume. rewrite Hstage.
    destruct (at_ m) as [cfg | e | [r | e]] eqn:Hat; simpl; rewrite ?Hat.
    + repeat split; try done.
    + repeat split; try done.
    + rewrite Hui. split; [|lia].
      split; [done|]. split; [by eexists | by right].
    + rewrite Hui. split; [|lia].
      split; [done|]. split; [by eexists | left; by eexists].
  - destruct Hok as (Hload & (o & Hsettled) & Hui).
    destruct (step_settled _ _ _ _ Hsettled Hm) as (Hat & _ & Hev).
    unfold LoginPage.resume. rewrite Hstage, Hev. simpl.
    split; [|lia]. split; [done|]. split; [by eexists | done].
Qed.

Lemma page_run_consistent evs : forall p p',
  run_page p evs = Some p' -> page_consistent p ->
  page_consistent p' /\ network_events evs + page_net_left p' <= page_net_left p.
Proof.
  induction evs as [|ev evs IH]; intros p p' Hrun Hok; simpl in Hrun.
  - injection Hrun as <-. unfold network_events. simpl. split; [done | lia].
  - destruct (step_page p ev) as [p1|] eqn:Hstep; [|done].
    destruct (page_step_consistent _ _ _ Hstep Hok) as [Hok1 Hle1].
    destruct (IH _ _ Hrun Hok1) as [Hok' Hle'].
    split; [done|]. unfold network_events in *. simpl.
    destruct (from_network ev); simpl in *; lia.
Qed.

(** X11. At every moment of [onSubmit], in every execution: until it has
    finished the page is loading and has shown nothing; once it has
    finished it is not loading, and it has shown either exactly one error
    toast or the welcome toast followed by the navigation to the
    dashboard, never both and never the navigation alone; and it takes at
    most six events from the network before it has finished. *)
Theorem login_page_shows_one_outcome
    (st : Store) (email password : string) (evs : list event)
    (p : LoginPage.page) :
  run_page (onSubmit st email password) evs = Some p ->
  page_consistent p /\ network_events evs <= 6.
Proof.
  intros Hrun.
  assert (Hok : page_consistent (onSubmit st email password)).
  { unfold page_consistent, LoginPage.onSubmit, api. simpl. done. }
  destruct (page_run_consistent _ _ _ Hrun Hok) as [Hok' Hle].
  split; [done|].
  unfold page_net_left, LoginPage.onSubmit, api in Hle. simpl in Hle.
  destruct (_retry _); lia.
Qed.

End LoginPageFacts.
Lemma getMe_goes_out_with_the_token_held_before_witness :
  exists p login_sent,
    LoginPage.run_page sample_tokens_of sample_userInfo_of sample_detail_of
      (LoginPage.onSubmit sample_FormData (create ∅) "a@b.co" "password")
      ((App <$> []) ++ [Transport (Answered {| status := 200;
                                               response_data := "tokens" |})])
    = Some p
    /\ LoginPage.at_stage p = LoginPage.AwaitingMe "tokens"
    /\ log (LoginPage.request p)
       = [Sent login_sent; Sent LoginPage.authAPI_getMe]
    /\ headers LoginPage.authAPI_getMe !! "Authorization" = None.
Proof.
  destruct (getMe_goes_out_with_the_token_held_before
              sample_FormData sample_tokens_of sample_userInfo_of
              sample_detail_of (create ∅) "a@b.co" "password" []
              {| status := 200; response_data := "tokens" |} eq_refl)
    as (p & login_sent & Hrun & Hstage & _ & _ & Hlog & _ & Hnone & _).
  exists p, login_sent. split; [exact Hrun|]. split; [exact Hstage|].
  split; [exact Hlog|]. apply Hnone. reflexivity.
Defined.

Lemma form_login_fails_when_me_needs_the_new_token_witness :
  exists p login_sent me_sent,
    LoginPage.run_page sample_tokens_of sample_userInfo_of sample_detail_of
      (LoginPage.onSubmit sample_FormData (create ∅) "a@b.co" "password")
      [Transport (Answered {| status := 200; response_data := "tokens" |});
       Transport (Answered unauthorized)] = Some p
    /\ log (LoginPage.request p) = [Sent login_sent; Sent me_sent; CalledLogout]
    /\ headers me_sent !! "Authorization" = None
    /\ LoginPage.ui p = [LoginPage.ToastError "token expired"]
    /\ getState (store (LoginPage.request p)) = initial.
Proof.
  destruct (form_login_fails_when_me_needs_the_new_token
              sample_FormData sample_tokens_of sample_userInfo_of
              sample_detail_of (create ∅) "a@b.co" "password"
              {| status := 200; response_data := "tokens" |} unauthorized)
    as (p & login_sent & me_sent & Hrun & Hlog & _ & Hnone & _ & _ & Hui
        & Hstate & _); [vm_compute; reflexivity.. |].
  exists p, login_sent, me_sent. done.
Defined.


Lemma login_page_shows_one_outcome_witness :
  exists p,
    LoginPage.run_page sample_tokens_of sample_userInfo_of sample_detail_of
      (LoginPage.onSubmit sample_FormData (create ∅) "a@b.co" "password")
      [Transport NoAnswer; App Logout] = Some p
    /\ page_consistent p
    /\ network_events [Transport NoAnswer; App Logout] <= 6.
Proof.
  eexists. split; [reflexivity|].
  apply (login_page_shows_one_outcome
           sample_FormData sample_tokens_of sample_userInfo_of sample_detail_of
           (create ∅) "a@b.co" "password" [Transport NoAnswer; App Logout]).
  reflexivity.
Defined.



(* ===================================================================== *)
(** ** The shipments page *)
(* ===================================================================== *)

Section Includes.

Implicit Types (s sub pre post : string).

Lemma string_app_assoc (s1 s2 s3 : string) :
  (s1 +:+ s2) +:+ s3 = s1 +:+ (s2 +:+ s3).
Proof.
  induction s1 as [|c s1 IH]; [done|].
  change (String c ((s1 +:+ s2) +:+ s3) = String c (s1 +:+ (s2 +:+ s3))).
  by f_equal.
Qed.

Lemma prefix_spec sub : forall s,
  String.prefix sub s = true <-> exists post, s = sub +:+ post.
Proof.
  induction sub as [|c sub IH]; intros s.
  - split; [intros _; by exists s | intros _; by destruct s].
  - destruct s as [|c' s].
    + split; [done | by intros [post [=]]].
    + change (String.prefix (String c sub) (String c' s))
        with (if Ascii.ascii_dec c c' then String.prefix sub s else false).
      destruct (Ascii.ascii_dec c c') as [-> | Hne].
      * rewrite IH. split; intros [post H]; exists post.
        -- by rewrite H.
        -- by injection H.
      * split; [done | intros [post [=]]; congruence].
Qed.

(** [includes] is the substring test. *)
Lemma includes_spec s : forall sub,
  ShipmentsPage.includes s sub = true
  <-> exists pre post, s = pre +:+ sub +:+ post.
Proof.
  induction s as [|c s IH]; intros sub; cbn [ShipmentsPage.includes].
  - rewrite orb_false_r, prefix_spec. split.
    + intros [post H]. by exists "", post.
    + intros (pre & post & H). destruct pre; [by exists post | done].
  - rewrite orb_true_iff, prefix_spec, IH. split.
    + intros [[post H] | (pre & post & H)].
      * by exists "", post.
      * exists (String c pre), post. by rewrite H.
    + intros (pre & post & H). destruct pre as [|c' pre].
      * left. by exists post.
      * right. exists pre, post. by injection H.
Qed.

Lemma includes_empty s : ShipmentsPage.includes s "" = true.
Proof. apply includes_spec. exists "", s. done. Qed.

Lemma includes_trans s1 s2 s3 :
  ShipmentsPage.includes s1 s2 = true -> ShipmentsPage.includes s2 s3 = true ->
  ShipmentsPage.includes s1 s3 = true.
Proof.
  rewrite !includes_spec. intros (p1 & q1 & ->) (p2 & q2 & ->).
  exists (p1 +:+ p2), (q2 +:+ q1). by rewrite !string_app_assoc.
Qed.

End Includes.

Section ShipmentsFilter.

Variable toLowerCase : string -> string.

Local Abbreviation shown := (ShipmentsPage.shown toLowerCase).
Local Abbreviation filterShipments := (ShipmentsPage.filterShipments toLowerCase).

Implicit Types (shipments : list ShipmentsPage.Shipment) (t s : string).

Lemma shown_empty_term s shipment :
  toLowerCase "" = "" ->
  shown "" s shipment
  = String.eqb s "all" || String.eqb (ShipmentsPage.status shipment) s.
Proof.
  intros H. unfold ShipmentsPage.shown. by rewrite H, !includes_empty.
Qed.

Lemma shown_all t shipment :
  shown t "all" shipment
  = ShipmentsPage.includes (toLowerCase (ShipmentsPage.trackingNumber shipment))
      (toLowerCase t)
    || ShipmentsPage.includes (toLowerCase (ShipmentsPage.origin shipment))
         (toLowerCase t)
    || ShipmentsPage.includes (toLowerCase (ShipmentsPage.destination shipment))
         (toLowerCase t).
Proof. unfold ShipmentsPage.shown. simpl. by rewrite andb_true_r. Qed.

Lemma filter_filter {A} (f g : A -> bool) (l : list A) :
  List.filter g (List.filter f l) = List.filter (fun x => f x && g x) l.
Proof.
  induction l as [|x l IH]; simpl; [done|].
  destruct (f x); simpl; [|done]. destruct (g x); by rewrite IH.
Qed.

(** X13. With the search box empty (and an engine whose [toLowerCase]
    keeps the empty string empty) the search does not restrict the table:
    with ['all'] selected every shipment is shown, and with a status
    selected exactly the shipments of that status are. *)
Theorem empty_search_shows_by_status_only shipments :
  toLowerCase "" = "" ->
  filterShipments shipments "" "all" = shipments
  /\ forall s shipment,
       In shipment (filterShipments shipments "" s)
       <-> In shipment shipments
           /\ (s = "all" \/ ShipmentsPage.status shipment = s).
Proof.
  intros H. split.
  - unfold ShipmentsPage.filterShipments.
    rewrite (filter_ext _ (fun _ => true)); [apply filter_true|].
    intros a. by rewrite shown_empty_term.
  - intros s shipment. unfold ShipmentsPage.filterShipments.
    rewrite filter_In, shown_empty_term by done.
    rewrite orb_true_iff, !String.eqb_eq. done.
Qed.

(** X14. Narrowing the search never brings a row back: when the lowered
    new term contains the lowered old one, the rows for the new term are
    the rows for the old term filtered again, so there are no more of
    them. *)
Theorem narrowing_the_search_filters_the_rows shipments t1 t2 s :
  ShipmentsPage.includes (toLowerCase t2) (toLowerCase t1) = true ->
  filterShipments shipments t2 s
  = filterShipments (filterShipments shipments t1 s) t2 s
  /\ length (filterShipments shipments t2 s)
     <= length (filterShipments shipments t1 s).
Proof.
  intros Hinc.
  assert (Heq : filterShipments shipments t2 s
                = filterShipments (filterShipments shipments t1 s) t2 s).
  { unfold ShipmentsPage.filterShipments. rewrite filter_filter.
    apply filter_ext. intros a. unfold ShipmentsPage.shown.
    destruct (String.eqb s "all" || String.eqb (ShipmentsPage.status a) s);
      [|by rewrite !andb_false_r].
    rewrite !andb_true_r.
    assert (Hmono : forall field,
              ShipmentsPage.includes field (toLowerCase t2) = true ->
              ShipmentsPage.includes field (toLowerCase t1) = true)
      by (intros field Hf; by eapply includes_trans).
    destruct (ShipmentsPage.includes (toLowerCase (ShipmentsPage.trackingNumber a))
                (toLowerCase t2)) eqn:H1;
      destruct (ShipmentsPage.includes (toLowerCase (ShipmentsPage.origin a))
                  (toLowerCase t2)) eqn:H2;
      destruct (ShipmentsPage.includes (toLowerCase (ShipmentsPage.destination a))
                  (toLowerCase t2)) eqn:H3;
      try rewrite (Hmono _ H1); try rewrite (Hmono _ H2);
      try rewrite (Hmono _ H3);
      repeat match goal with
             | |- context [ShipmentsPage.includes ?x ?y] =>
                 destruct (ShipmentsPage.includes x y)
             end; done. }
  split; [exact Heq|]. rewrite Heq.
  unfold ShipmentsPage.filterShipments at 1. apply filter_length_le.
Qed.

(** X15. The search and the status work apart: filtering by both is
    filtering by the search alone and then by the status alone, and the
    other way round. *)
Theorem search_and_status_compose shipments t s :
  toLowerCase "" = "" ->
  filterShipments shipments t s
  = filterShipments (filterShipments shipments t "all") "" s
  /\ filterShipments shipments t s
     = filterShipments (filterShipments shipments "" s) t "all".
Proof.
  intros H. unfold ShipmentsPage.filterShipments. rewrite !filter_filter.
  split; apply filter_ext; intros a;
    rewrite shown_all, shown_empty_term by done; unfold ShipmentsPage.shown.
  - done.
  - apply andb_comm.
Qed.

End ShipmentsFilter.

Lemma empty_search_shows_by_status_only_witness :
  ShipmentsPage.filteredShipments lower "" "all" = ShipmentsPage.mockShipments
  /\ forall s shipment,
       In shipment (ShipmentsPage.filteredShipments lower "" s)
       <-> In shipment ShipmentsPage.mockShipments
           /\ (s = "all" \/ ShipmentsPage.status shipment = s).
Proof.
  apply (empty_search_shows_by_status_only lower ShipmentsPage.mockShipments).
  reflexivity.
Defined.

Lemma narrowing_the_search_filters_the_rows_witness :
  ShipmentsPage.filteredShipments lower "Dhaka C" "In Transit"
  = ShipmentsPage.filterShipments lower
      (ShipmentsPage.filteredShipments lower "DHAKA" "In Transit")
      "Dhaka C" "In Transit"
  /\ length (ShipmentsPage.filteredShipments lower "Dhaka C" "In Transit")
     <= length (ShipmentsPage.filteredShipments lower "DHAKA" "In Transit").
Proof.
  apply (narrowing_the_search_filters_the_rows lower
           ShipmentsPage.mockShipments "DHAKA" "Dhaka C" "In Transit").
  reflexivity.
Defined.

Lemma search_and_status_compose_witness :
  ShipmentsPage.filteredShipments lower "hub" "Cancelled"
  = ShipmentsPage.filterShipments lower
      (ShipmentsPage.filteredShipments lower "hub" "all") "" "Cancelled"
  /\ ShipmentsPage.filteredShipments lower "hub" "Cancelled"
     = ShipmentsPage.filterShipments lower
         (ShipmentsPage.filteredShipments lower "" "Cancelled") "hub" "all".
Proof.
  apply (search_and_status_compose lower ShipmentsPage.mockShipments
           "hub" "Cancelled").
  reflexivity.
Defined.

(** X16. [getStatusColor] gives the grey default exactly to the strings
    that are none of the four statuses, letter case counting, and gives
    the four statuses four different colours; so every status the select
    offers, and every status in the mock data, has a colour of its own. *)
Theorem status_colours_are_distinct_and_case_sensitive :
  (forall status,
     ShipmentsPage.getStatusColor status = "bg-gray-100 text-gray-800"
     <-> status ∉ ["Delivered"; "In Transit"; "Pending"; "Cancelled"])
  /\ (forall s1 s2,
        s1 ∈ ["Delivered"; "In Transit"; "Pending"; "Cancelled"] ->
        ShipmentsPage.getStatusColor s1 = ShipmentsPage.getStatusColor s2 ->
        s1 = s2)
  /\ (forall option, option ∈ ShipmentsPage.status_options -> option <> "all" ->
        ShipmentsPage.getStatusColor option <> "bg-gray-100 text-gray-800")
  /\ Forall (fun shipment =>
               ShipmentsPage.getStatusColor (ShipmentsPage.status shipment)
               <> "bg-gray-100 text-gray-800") ShipmentsPage.mockShipments
  /\ ShipmentsPage.getStatusColor "delivered" = "bg-gray-100 text-gray-800".
Proof.
  assert (Hcases : forall s,
            (s = "Delivered" \/ s = "In Transit" \/ s = "Pending"
             \/ s = "Cancelled")
            \/ ((s ∉ ["Delivered"; "In Transit"; "Pending"; "Cancelled"])
                /\ ShipmentsPage.getStatusColor s = "bg-gray-100 text-gray-800")).
  { intros s. unfold ShipmentsPage.getStatusColor.
    destruct (String.eqb_spec s "Delivered"); [by left; left|].
    destruct (String.eqb_spec s "In Transit"); [by left; right; left|].
    destruct (String.eqb_spec s "Pending"); [by left; right; right; left|].
    destruct (String.eqb_spec s "Cancelled"); [by left; right; right; right|].
    right. split; [|done]. intros Hin. key_cases Hin; done. }
  split; [|split; [|split; [|split]]].
  - intros s. destruct (Hcases s) as [[-> | [-> | [-> | ->]]] | [Hnot Hgrey]].
    1-4: split; [discriminate | intros Hnot; exfalso; apply Hnot;
                                 by repeat constructor].
    done.
  - intros s1 s2 Hin Heq.
    destruct (Hcases s2) as [[-> | [-> | [-> | ->]]] | [_ Hgrey]];
      key_cases Hin; try done; try discriminate Heq.
    all: rewrite Hgrey in Heq; discriminate Heq.
  - intros o Hin Hne. unfold ShipmentsPage.status_options in Hin.
    key_cases Hin; done.
  - repeat constructor; discriminate.
  - reflexivity.
Qed.


(** X18. The request interceptor can be run again without effect, which
    the retried request relies on; and it gives way to no header of the
    caller: while the store holds a non-empty access token a request that
    came with an [Authorization] header of its own goes out with the
    token of the store instead, and keeps its own only when the store
    holds none. *)
Theorem request_interceptor_idempotent_and_overriding
    (state : AuthState) (cfg : AxiosRequestConfig) (own : string) :
  request_interceptor state (request_interceptor state cfg)
  = request_interceptor state cfg
  /\ (forall tok, accessToken state = Some tok -> tok <> "" ->
        headers (request_interceptor state
                   (with_header "Authorization" own cfg)) !! "Authorization"
        = Some ("Bearer " +:+ tok))
  /\ (truthy (accessToken state) = false ->
        headers (request_interceptor state
                   (with_header "Authorization" own cfg)) !! "Authorization"
        = Some own).
Proof.
  split; [|split].
  - unfold request_interceptor.
    destruct (accessToken state) as [tok|]; [|done].
    destruct (truthy (Some tok)); [|done]. apply with_header_twice.
  - intros tok Htok Hne. rewrite (request_interceptor_truthy _ _ tok) by done.
    apply lookup_insert_eq.
  - intros Hfalsy. rewrite request_interceptor_falsy by done.
    apply lookup_insert_eq.
Qed.

Lemma request_interceptor_idempotent_and_overriding_witness :
  headers (request_interceptor (getState signed_in)
             (with_header "Authorization" "Basic abc" get_shipments))
    !! "Authorization" = Some "Bearer T1"
  /\ headers (request_interceptor initial
                (with_header "Authorization" "Basic abc" get_shipments))
       !! "Authorization" = Some "Basic abc".
Proof.
  split.
  - apply (proj1 (proj2 (request_interceptor_idempotent_and_overriding
                           (getState signed_in) get_shipments "Basic abc"))
             "T1"); [reflexivity | discriminate].
  - apply (proj2 (proj2 (request_interceptor_idempotent_and_overriding
                           initial get_shipments "Basic abc"))).
    reflexivity.
Defined.
